(** * lit-data-grid: column-width model and reorder coordinator

    A shallow embedding of the layout/state synchronisation code of the
    [data-grid] and [data-grid-column] custom elements
    (src/data-grid.ts, src/data-grid-column.ts), with the properties of
    the specification stated and proved over it.

    JavaScript numbers are IEEE 754 binary64 values; they are modelled by
    the Standard Library's [spec_float] with the binary64 parameters, so
    every operation below computes exactly what the engine computes. *)

From Stdlib Require Import ZArith Bool Lia.
From Stdlib Require Import Floats.SpecFloat.
From stdpp Require Import base option list strings.

Open Scope Z_scope.

(** ** JavaScript numbers *)

Module JsNumber.

Definition prec : Z := 53.
Definition emax : Z := 1024.

Definition number : Type := spec_float.

Definition NaN : number := S754_nan.
Definition of_Z (z : Z) : number := binary_normalize prec emax z 0 false.

Definition add : number -> number -> number := SFadd prec emax.
Definition sub : number -> number -> number := SFsub prec emax.
Definition mul : number -> number -> number := SFmul prec emax.
Definition div : number -> number -> number := SFdiv prec emax.

Definition ltb : number -> number -> bool := SFltb.
Definition leb : number -> number -> bool := SFleb.
(** [a == b] on two numbers. *)
Definition eqb : number -> number -> bool := SFeqb.

Definition is_nan (x : number) : bool :=
  match x with S754_nan => true | _ => false end.

Definition is_zero (x : number) : bool :=
  match x with S754_zero _ => true | _ => false end.

(** ToBoolean on a number: [+0], [-0] and [NaN] are falsy. *)
Definition truthy (x : number) : bool :=
  match x with
  | S754_zero _ | S754_nan => false
  | _ => true
  end.

(** [Math.max(value1, value2, ...)] as ECMAScript defines it: the running
    maximum starts at [-Infinity]; a [NaN] argument makes the result
    [NaN]; [+0] is larger than [-0]. *)
Definition max_step (highest : option number) (x : number) : option number :=
  match highest with
  | None => None
  | Some h =>
      if is_nan x then None
      else match x, h with
           | S754_zero false, S754_zero true => Some x
           | _, _ => if ltb h x then Some x else Some h
           end
  end.

Definition Math_max (args : list number) : number :=
  match foldl max_step (Some (S754_infinity true)) args with
  | Some h => h
  | None => NaN
  end.

End JsNumber.

Import JsNumber.

Declare Scope js_scope.
Delimit Scope js_scope with js.
Infix "+" := add : js_scope.
Infix "-" := sub : js_scope.
Infix "*" := mul : js_scope.
Infix "/" := div : js_scope.

(** An optional property ([minWidth?: number]) or an array slot that may
    read [undefined]: [None] is [undefined].  [truthy_val x] is [Some v]
    exactly when [x] holds a truthy number [v], the case in which
    [x ? a : b] and [x || b] take their first branch. *)
Definition truthy_val (x : option number) : option number :=
  match x with
  | Some v => if truthy v then Some v else None
  | None => None
  end.

(** [a || b] where [a] may be [undefined]. *)
Definition or_else (a : option number) (b : number) : number :=
  default b (truthy_val a).

(** [a ?? b]: only [undefined] falls through. *)
Definition nullish_else (a : option number) (b : number) : number :=
  default b a.

(** ** utils/shared.ts *)

Module Shared.

(** Modelled from the spec: [pixelsToPercentOfWidth] of utils/shared.ts,
    which both elements import.  The specification gives it as
    [(px / gridWidthPx) * 100], with [gridWidthPx == 0] producing [0]. *)
Definition pixelsToPercentOfWidth (px gridWidthPx : number) : number :=
  if eqb gridWidthPx (of_Z 0) then of_Z 0
  else ((px / gridWidthPx) * of_Z 100)%js.

End Shared.

Import Shared.

(** ** JavaScript arrays

    An array is a list whose slots hold [option A]: [None] is the value
    [undefined].  Reading past the end gives [undefined]; writing past
    the end extends the array. *)

Module JsArray.

Abbreviation array A := (list (option A)) (only parsing).

Section Ops.
Context {A : Type}.

(** [arr[i]] *)
Definition get (arr : array A) (i : nat) : option A := mjoin (arr !! i).

(** [arr[i] = v] *)
Definition set (arr : array A) (i : nat) (v : option A) : array A :=
  if decide (i < length arr)%nat then <[i := v]> arr
  else arr ++ replicate (i - length arr) None ++ [v].

(** ToIntegerOrInfinity on an index that may be [undefined]. *)
Definition to_integer (i : option Z) : Z := default 0 i.

(** The clamping of [start] that [Array.prototype.splice] performs. *)
Definition actual_start (len : nat) (start : Z) : nat :=
  if start <? 0 then Z.to_nat (Z.max (Z.of_nat len + start) 0)
  else Z.to_nat (Z.min start (Z.of_nat len)).

Definition actual_delete_count (len start : nat) (deleteCount : Z) : nat :=
  Z.to_nat (Z.min (Z.max deleteCount 0) (Z.of_nat len - Z.of_nat start)).

(** [arr.splice(start, deleteCount, ...items)]: the removed elements
    and the array after the call. *)
Definition splice (arr : array A) (start : option Z) (deleteCount : Z)
    (items : array A) : array A * array A :=
  let len := length arr in
  let s := actual_start len (to_integer start) in
  let d := actual_delete_count len s deleteCount in
  (take d (drop s arr), take s arr ++ items ++ drop (s + d) arr).

End Ops.

End JsArray.

Import JsArray.

(** ** types.ts: the data model *)

Record Column : Type := mkColumn {
  field : string;
  label : string;
  minWidth : option number;
  maxWidth : option number
}.

Definition Row : Type := list (string * string).

(** [c?.minWidth] *)
Definition minWidth_of (c : option Column) : option number := c ≫= minWidth.

(** A drop reported by the gesture layer ([Sortable.SortableEvent]): both
    indices have type [number | undefined]. *)
Record SortableEvent : Type := mkEvent {
  oldIndex : option Z;
  newIndex : option Z;
  item : nat
}.

Inductive Axis : Type := Horizontal | Vertical.

(** An instance of the external drag library.  The grid only constructs
    instances and calls [destroy] on them. *)
Record Sortable : Type := mkSortable {
  direction : Axis;
  destroyed : bool
}.

(** ** data-grid.ts *)

Record DataGrid : Type := mkGrid {
  columns : array Column;
  rows : array Row;
  sortable : bool;
  reorderable : bool;
  gridTemplateColumns : array number;
  (** [getBoundingClientRect().width] of the element *)
  boundingWidth : number;
  (** the [Sortable] objects constructed so far, addressed by position *)
  sortables : list Sortable;
  sortableColumns : option nat;
  sortableRows : option nat;
  colBefore : option nat;
  rowBefore : option nat
}.

Definition set_columns (v : array Column) (g : DataGrid) : DataGrid :=
  mkGrid v (rows g) (sortable g) (reorderable g) (gridTemplateColumns g)
    (boundingWidth g) (sortables g) (sortableColumns g) (sortableRows g)
    (colBefore g) (rowBefore g).
Definition set_rows (v : array Row) (g : DataGrid) : DataGrid :=
  mkGrid (columns g) v (sortable g) (reorderable g) (gridTemplateColumns g)
    (boundingWidth g) (sortables g) (sortableColumns g) (sortableRows g)
    (colBefore g) (rowBefore g).
Definition set_sortable (v : bool) (g : DataGrid) : DataGrid :=
  mkGrid (columns g) (rows g) v (reorderable g) (gridTemplateColumns g)
    (boundingWidth g) (sortables g) (sortableColumns g) (sortableRows g)
    (colBefore g) (rowBefore g).
Definition set_reorderable (v : bool) (g : DataGrid) : DataGrid :=
  mkGrid (columns g) (rows g) (sortable g) v (gridTemplateColumns g)
    (boundingWidth g) (sortables g) (sortableColumns g) (sortableRows g)
    (colBefore g) (rowBefore g).
Definition set_gridTemplateColumns (v : array number) (g : DataGrid) : DataGrid :=
  mkGrid (columns g) (rows g) (sortable g) (reorderable g) v
    (boundingWidth g) (sortables g) (sortableColumns g) (sortableRows g) (colBefore g)
    (rowBefore g).
Definition set_sortables (v : list Sortable) (g : DataGrid) : DataGrid :=
  mkGrid (columns g) (rows g) (sortable g) (reorderable g)
    (gridTemplateColumns g) (boundingWidth g) v (sortableColumns g)
    (sortableRows g) (colBefore g) (rowBefore g).
Definition set_sortableColumns (v : option nat) (g : DataGrid) : DataGrid :=
  mkGrid (columns g) (rows g) (sortable g) (reorderable g)
    (gridTemplateColumns g) (boundingWidth g) (sortables g) v
    (sortableRows g) (colBefore g) (rowBefore g).
Definition set_sortableRows (v : option nat) (g : DataGrid) : DataGrid :=
  mkGrid (columns g) (rows g) (sortable g) (reorderable g)
    (gridTemplateColumns g) (boundingWidth g) (sortables g)
    (sortableColumns g) v (colBefore g) (rowBefore g).
Definition set_colBefore (v : option nat) (g : DataGrid) : DataGrid :=
  mkGrid (columns g) (rows g) (sortable g) (reorderable g)
    (gridTemplateColumns g) (boundingWidth g) (sortables g)
    (sortableColumns g) (sortableRows g) v (rowBefore g).
Definition set_rowBefore (v : option nat) (g : DataGrid) : DataGrid :=
  mkGrid (columns g) (rows g) (sortable g) (reorderable g)
    (gridTemplateColumns g) (boundingWidth g) (sortables g)
    (sortableColumns g) (sortableRows g) (colBefore g) v.

(** *** Cell resizing *)

(** The equal share [100 / this.columns.length - 1]. *)
Definition default_share (n : nat) : number :=
  (of_Z 100 / of_Z (Z.of_nat n) - of_Z 1)%js.

(** The callback that [initializeCellWidths] maps over [this.columns]. *)
Definition cell_width (prior : array number) (gridWidth : number) (n : nat)
    (index : nat) (c : option Column) : number :=
  let existingWidth :=
    if (1 <? length prior)%nat then get prior index else None in
  match truthy_val existingWidth with
  | Some w => w
  | None =>
      match truthy_val (minWidth_of c) with
      | Some m => pixelsToPercentOfWidth m gridWidth
      | None => default_share n
      end
  end.

Definition initializeCellWidths (g : DataGrid) : DataGrid :=
  set_gridTemplateColumns
    (imap (fun index c =>
             Some (cell_width (gridTemplateColumns g) (boundingWidth g)
                     (length (columns g)) index c))
          (columns g))
    g.

(** The watcher of [columns]; an array is always truthy, so the guard
    reduces to the comparison of the two lengths. *)
Definition handleColumnsChange (g : DataGrid) : DataGrid :=
  if decide (length (gridTemplateColumns g) ≠ length (columns g))
  then initializeCellWidths g
  else g.

(** *** Cell reordering *)

(** [arr.splice(to, 0, arr.splice(from, 1)[0])], the body shared by the
    two [onEnd] callbacks. *)
Definition move {A : Type} (arr : array A) (from to : option Z) : array A :=
  let '(removed, arr1) := splice arr from 1 [] in
  snd (splice arr1 to 0 [get removed 0]).

(** [onStart] and [onEnd] of the column coordinator.  The DOM re-anchoring
    ([colBefore.after(e.item)]) and [requestUpdate()] leave the model
    untouched. *)
Definition columns_onStart (previousSibling : option nat) (g : DataGrid)
    : DataGrid :=
  set_colBefore previousSibling g.

Definition columns_onEnd (e : SortableEvent) (g : DataGrid) : DataGrid :=
  let to := newIndex e in
  let from := oldIndex e in
  set_colBefore None (set_columns (move (columns g) from to) g).

(** [onStart] and [onEnd] of the row coordinator. *)
Definition rows_onStart (previousSibling : option nat) (g : DataGrid)
    : DataGrid :=
  set_rowBefore previousSibling g.

Definition rows_onEnd (e : SortableEvent) (g : DataGrid) : DataGrid :=
  set_rowBefore None
    (set_rows (move (rows g) (oldIndex e) (newIndex e)) g).

Definition destroy (s : Sortable) : Sortable :=
  mkSortable (direction s) true.

(** [sortable.destroy()] on the object a field refers to, guarded by
    [if (this.field)]. *)
Definition destroy_ref (r : option nat) (g : DataGrid) : DataGrid :=
  match r with
  | Some i => set_sortables (alter destroy i (sortables g)) g
  | None => g
  end.

Definition destroy_both (g : DataGrid) : DataGrid :=
  destroy_ref (sortableRows g) (destroy_ref (sortableColumns g) g).

(** [new Sortable(...)]: a fresh live object, and its position. *)
Definition new_Sortable (d : Axis) (g : DataGrid) : nat * DataGrid :=
  (length (sortables g),
   set_sortables (sortables g ++ [mkSortable d false]) g).

(** The body of [handleSortableColumnChange], for the value [enabled] of
    the flag it reads after [await this.updateComplete]. *)
Definition coordinators_watcher (enabled : bool) (g : DataGrid) : DataGrid :=
  if negb enabled then destroy_both g
  else
    let '(c, g1) := new_Sortable Horizontal g in
    let g2 := set_sortableColumns (Some c) g1 in
    let '(r, g3) := new_Sortable Vertical g2 in
    set_sortableRows (Some r) g3.

(** The watcher of [reorderable] in data-grid.ts. *)
Definition handleSortableColumnChange (g : DataGrid) : DataGrid :=
  coordinators_watcher (reorderable g) g.

(** An earlier revision of the element binds the same watcher to the
    [sortable] flag. *)
Module Earlier.
Definition handleSortableColumnChange (g : DataGrid) : DataGrid :=
  coordinators_watcher (sortable g) g.
End Earlier.

Definition disconnectedCallback (g : DataGrid) : DataGrid :=
  destroy_both g.

(** ** data-grid-column.ts *)

(** What a column method can see and change besides the column itself:
    the grid object its [grid] field refers to, if the column has an
    enclosing grid, and the console. *)
Record World : Type := mkWorld {
  grid : option DataGrid;
  console : list string
}.

(** A computation either returns or throws. *)
Inductive outcome (A : Type) : Type :=
| Return (a : A)
| Throw (e : string).
Arguments Return {A} a.
Arguments Throw {A} e.

Definition Js (A : Type) : Type := World -> outcome A * World.

Definition ret {A} (a : A) : Js A := fun w => (Return a, w).
Definition bind {A B} (m : Js A) (k : A -> Js B) : Js B :=
  fun w =>
    match m w with
    | (Return a, w') => k a w'
    | (Throw e, w') => (Throw e, w')
    end.
Definition throw {A} (e : string) : Js A := fun w => (Throw e, w).

Notation "x <- m ;; k" := (bind m (fun x => k))
  (at level 100, m at next level, right associativity).
Notation "m ;;; k" := (bind m (fun _ => k))
  (at level 100, right associativity).

(** [this.grid] *)
Definition read_grid : Js (option DataGrid) := fun w => (Return (grid w), w).
(** An assignment to a property of the grid object. *)
Definition write_grid (g : DataGrid) : Js unit :=
  fun w => (Return tt, mkWorld (Some g) (console w)).
Definition console_warn (msg : string) : Js unit :=
  fun w => (Return tt, mkWorld (grid w) (console w ++ [msg])).

(** [o.getBoundingClientRect().width]; the member access throws a
    [TypeError] when [o] is [undefined]. *)
Definition getBoundingClientRect_width (o : option DataGrid) : Js number :=
  match o with
  | Some g => ret (boundingWidth g)
  | None => throw "TypeError"
  end.

Record DataGridColumn : Type := mkColumnElement {
  index : nat;
  col_minWidth : option number;
  col_maxWidth : option number;
  _resizing : bool;
  width : option number;
  (** [offsetWidth] of the element, an integer number of pixels *)
  offsetWidth : number
}.

Definition set_resizing (v : bool) (c : DataGridColumn) : DataGridColumn :=
  mkColumnElement (index c) (col_minWidth c) (col_maxWidth c) v (width c)
    (offsetWidth c).
Definition set_width (v : option number) (c : DataGridColumn)
    : DataGridColumn :=
  mkColumnElement (index c) (col_minWidth c) (col_maxWidth c) (_resizing c) v
    (offsetWidth c).

Definition warning : string := "DataGridColumn must be a child of DataGrid".

(** The getter [gridWidth]. *)
Definition gridWidth : Js number :=
  g <- read_grid ;;
  if bool_decide (is_Some g) then getBoundingClientRect_width g
  else (console_warn warning ;;; ret (of_Z 0)).

(** The watcher of [width]. *)
Definition handleWidthChange (this : DataGridColumn) : Js unit :=
  g <- read_grid ;;
  match g with
  | Some g =>
      let gridTemplateColumns' :=
        set (gridTemplateColumns g) (index this) (width this) in
      write_grid (set_gridTemplateColumns gridTemplateColumns' g)
  | None => ret tt
  end.

(** Modelled from the spec: the [@watch] decorator of utils/watch.ts.
    Following the specification's [resize] contract (the new width is
    written to the slot and republished), an assignment to [width] runs
    [handleWidthChange]. *)
Definition assign_width (v : option number) (this : DataGridColumn)
    : Js DataGridColumn :=
  let this' := set_width v this in
  handleWidthChange this' ;;; ret this'.

Definition firstUpdated (this : DataGridColumn) : Js DataGridColumn :=
  g <- read_grid ;;
  match g with
  | Some g => assign_width (get (gridTemplateColumns g) (index this)) this
  | None => ret this
  end.

(** What [onResizePointerDown] captures for the gesture. *)
Record ResizeSession : Type := mkSession {
  startX : number;
  startWidth : number
}.

Definition fallback_minWidth : number := of_Z 60.

Definition onResizePointerDown (clientX : number) (this : DataGridColumn)
    : ResizeSession * DataGridColumn :=
  (mkSession clientX (or_else (Some (offsetWidth this)) (of_Z 0)),
   set_resizing true this).

(** The pixel width of the resize expression, before the conversion. *)
Definition resized_px (s : ResizeSession) (clientX : number)
    (this : DataGridColumn) : number :=
  Math_max [or_else (col_minWidth this) fallback_minWidth;
            (startWidth s + clientX - startX s)%js].

Definition onPointerMove (s : ResizeSession) (clientX : number)
    (this : DataGridColumn) : Js DataGridColumn :=
  if _resizing this then
    gw <- gridWidth ;;
    assign_width
      (Some (pixelsToPercentOfWidth (resized_px s clientX this) gw)) this
  else ret this.

Definition onPointerUp (this : DataGridColumn) : DataGridColumn :=
  set_resizing false this.

(** ** The grid as a state machine

    The element reacts to property assignments by its host, to the
    callbacks of its two coordinators and to the width writes of its
    columns. *)

(** The external drag library, as far as the element relies on it: an
    instance reports gestures through the callbacks it was constructed
    with, and [destroy()] releases its listeners, so a destroyed instance
    reports nothing.  The horizontal instance carries the column callbacks, the
    vertical one the row callbacks. *)
Definition dispatch (sid : nat) (onColumns onRows : DataGrid -> DataGrid)
    (g : DataGrid) : DataGrid :=
  match sortables g !! sid with
  | Some s =>
      if destroyed s then g
      else match direction s with
           | Horizontal => onColumns g
           | Vertical => onRows g
           end
  | None => g
  end.

Inductive GridEvent : Type :=
| ColumnsAssigned (v : array Column)
| RowsAssigned (v : array Row)
| ReorderableAssigned (v : bool)
| WidthAssigned (i : nat) (v : option number)
| DragStart (sid : nat) (previousSibling : option nat)
| DragEnd (sid : nat) (e : SortableEvent)
| Disconnected
| WatcherResumed.


(** Modelled from the spec: the [@watch] decorator of utils/watch.ts,
    which runs a watcher when its property is assigned.  The watcher of
    [columns] does its work at once.  The watcher of [reorderable] first
    awaits [this.updateComplete] and reads the flag afterwards: the
    assignment only stores the flag, and the rest of the watcher is an
    event of its own, [WatcherResumed], which sees the flag as it is by
    then; other events, further assignments among them, may come in
    between. *)
Definition step (ev : GridEvent) (g : DataGrid) : DataGrid :=
  match ev with
  | ColumnsAssigned v => handleColumnsChange (set_columns v g)
  | RowsAssigned v => set_rows v g
  | ReorderableAssigned v => set_reorderable v g
  | WidthAssigned i v =>
      set_gridTemplateColumns (set (gridTemplateColumns g) i v) g
  | DragStart sid p => dispatch sid (columns_onStart p) (rows_onStart p) g
  | DragEnd sid e => dispatch sid (columns_onEnd e) (rows_onEnd e) g
  | Disconnected => disconnectedCallback g
  | WatcherResumed => handleSortableColumnChange g
  end.

Definition run (evs : list GridEvent) (g : DataGrid) : DataGrid :=
  foldl (fun g ev => step ev g) g evs.

(** The first update runs both watchers; this is the grid after it when
    nothing happens before the watcher of [reorderable] resumes. *)
Definition firstUpdate (g : DataGrid) : DataGrid :=
  handleSortableColumnChange (handleColumnsChange g).


(** ** Cell rendering (data-grid.ts)

    What a [render] callback may hand back, as far as [renderCell] tells
    the cases apart: primitives, an [HTMLElement], and other objects and
    functions with their [_$litType$] property, if they have one. *)

Inductive value : Type :=
| VUndefined
| VNull
| VBoolean (b : bool)
| VNumber (n : number)
| VString (s : string)
| VElement (tag : string)
| VObject (litType : option number)
| VFunction (litType : option number).

(** What a cell shows. *)
Inductive rendered : Type :=
| RField (v : option string)
| RChildren (v : value)
| RCss (s : string)
| RDiv (content : string)
| RNothing.

(** [column.render]: a callback from the field value and the row index. *)
Definition RenderFn : Type := option string -> nat -> value.

(** [this.renderer]: what it mounts into the container it is given. *)
Definition Renderer : Type := value -> string.

Definition and_then {A B : Type} (o : outcome A) (k : A -> outcome B)
    : outcome B :=
  match o with
  | Return a => k a
  | Throw e => Throw e
  end.

(** [row[key]] on a row object. *)
Fixpoint row_get (row : Row) (key : string) : option string :=
  match row with
  | [] => None
  | (k, v) :: rest => if decide (k = key) then Some v else row_get rest key
  end.

(** [children instanceof HTMLElement || children._$litType$], as a
    condition; the property access throws on [null] and [undefined]. *)
Definition is_renderable (children : value) : outcome bool :=
  match children with
  | VElement _ => Return true
  | VUndefined | VNull => Throw "TypeError"
  | VObject lt | VFunction lt => Return (bool_decide (is_Some (truthy_val lt)))
  | VBoolean _ | VNumber _ | VString _ => Return false
  end.

(** [renderCell(row, column, index)]; [render_of] reads the [render]
    property of a column. *)
Definition renderCell (render_of : Column -> option RenderFn)
    (renderer : option Renderer) (row : option Row) (column : option Column)
    (index : nat) : outcome rendered :=
  match column with
  | None => Throw "TypeError"
  | Some c =>
      match render_of c, row with
      | _, None => Throw "TypeError"
      | Some render, Some r =>
          let children := render (row_get r (field c)) index in
          and_then (is_renderable children) (fun direct =>
            if direct then Return (RChildren children)
            else match children, renderer with
                 | VString s, _ => Return (RCss s)
                 | VFunction _, Some mount => Return (RDiv (mount children))
                 | _, _ => Return RNothing
                 end)
      | None, Some r => Return (RField (row_get r (field c)))
      end
  end.

(** [arr.map(f)] for a callback that may throw: the first throw ends the
    loop.  [i] is the index of the first element. *)
Fixpoint map_from {A B : Type} (f : nat -> A -> outcome B) (i : nat)
    (arr : list A) : outcome (list B) :=
  match arr with
  | [] => Return []
  | a :: rest =>
      and_then (f i a) (fun b =>
        and_then (map_from f (S i) rest) (fun bs => Return (b :: bs)))
  end.

(** The template of the grid: one header cell per column, carrying its
    index and [column?.label], and one cell per row and column. *)
Record Template : Type := mkTemplate {
  head : list (nat * option string);
  body : list (list rendered)
}.

Definition render (render_of : Column -> option RenderFn)
    (renderer : option Renderer) (g : DataGrid) : outcome Template :=
  let header := imap (fun idx column => (idx, label <$> column)) (columns g) in
  and_then
    (map_from
       (fun idx row =>
          map_from (fun _ column => renderCell render_of renderer row column idx)
            0 (columns g))
       0 (rows g))
    (fun cells => Return (mkTemplate header cells)).

Module EarlierCells.
(** The earlier revision hands the callback's result back as it is. *)
Definition renderCell (render_of : Column -> option RenderFn)
    (row : option Row) (column : option Column) (index : nat)
    : outcome rendered :=
  match column with
  | None => Throw "TypeError"
  | Some c =>
      match render_of c, row with
      | _, None => Throw "TypeError"
      | Some render, Some r =>
          Return (RChildren (render (row_get r (field c)) index))
      | None, Some r => Return (RField (row_get r (field c)))
      end
  end.
End EarlierCells.

(** ** The resize gesture on the page (data-grid-column.ts)

    [onResizePointerDown] registers two closures on [document]; each
    pointer down creates a fresh pair, told apart here by a number. *)

Inductive ListenerKind : Type := OnPointerMove | OnPointerUp.

Record Listener : Type := mkListener {
  kind : ListenerKind;
  closure : nat;
  captured : ResizeSession
}.

Record Page : Type := mkPage {
  listeners : list Listener;
  fresh : nat;
  element : DataGridColumn;
  world : World
}.

Definition is_kind (k : ListenerKind) (l : Listener) : bool :=
  match k, kind l with
  | OnPointerMove, OnPointerMove | OnPointerUp, OnPointerUp => true
  | _, _ => false
  end.

(** A pointer down on the resize handle. *)
Definition pointerdown (clientX : number) (p : Page) : Page :=
  let '(s, this) := onResizePointerDown clientX (element p) in
  mkPage
    (listeners p ++ [mkListener OnPointerMove (fresh p) s;
                     mkListener OnPointerUp (fresh p) s])
    (S (fresh p)) this (world p).

(** One [onPointerMove] closure called with a pointer position. *)
Definition call_move (clientX : number) (p : Page) (l : Listener) : Page :=
  match onPointerMove (captured l) clientX (element p) (world p) with
  | (Return this, w) => mkPage (listeners p) (fresh p) this w
  | (Throw _, w) => mkPage (listeners p) (fresh p) (element p) w
  end.

(** One [onPointerUp] closure: it ends the resize and removes itself
    and its [onPointerMove] companion. *)
Definition call_up (p : Page) (l : Listener) : Page :=
  mkPage
    (filter (fun l' => closure l' ≠ closure l) (listeners p))
    (fresh p) (onPointerUp (element p)) (world p).

(** [document] dispatching a pointer move or a pointer up to the
    listeners registered when the event fires. *)
Definition pointermove (clientX : number) (p : Page) : Page :=
  foldl (call_move clientX) p
    (filter (fun l => is_kind OnPointerMove l = true) (listeners p)).

Definition pointerup (p : Page) : Page :=
  foldl call_up p
    (filter (fun l => is_kind OnPointerUp l = true) (listeners p)).

Inductive PointerEvent : Type :=
| Down (clientX : number)
| Move (clientX : number)
| Up.

Definition pointer (ev : PointerEvent) (p : Page) : Page :=
  match ev with
  | Down x => pointerdown x p
  | Move x => pointermove x p
  | Up => pointerup p
  end.

Definition pointers (evs : list PointerEvent) (p : Page) : Page :=
  foldl (fun p ev => pointer ev p) p evs.

(** A page on which the column has not been touched yet. *)
Definition idle_page (this : DataGridColumn) (w : World) : Page :=
  mkPage [] 0 (set_resizing false this) w.

(** ** Notions used by the further properties *)

(** A slot that holds a number that is neither [0] nor [NaN]. *)
Definition usable_width (w : option number) : Prop :=
  is_Some (truthy_val w).

(** Every closure on [document] has its [onPointerUp] companion there,
    and the column is not resizing when nothing is registered. *)
Definition page_inv (p : Page) : Prop :=
  (∀ l, l ∈ listeners p ->
        ∃ l', l' ∈ listeners p ∧ is_kind OnPointerUp l' = true
              ∧ closure l' = closure l) ∧
  (listeners p = [] -> _resizing (element p) = false).

(** * Stated properties and sample data

    The sentences of the specification that are compared with the code,
    written out as they read, and the grids and events that the examples
    below run. *)

(** The width that the specification's sentence on recomputation gives
    to slot [index]: the prior width stored there if there is one, else
    the converted [minWidth] if it is set, else the equal share. *)
Definition stated_cell_width (prior : array number) (gridWidth : number)
    (n : nat) (index : nat) (c : option Column) : number :=
  match get prior index with
  | Some w => w
  | None =>
      match minWidth_of c with
      | Some m => pixelsToPercentOfWidth m gridWidth
      | None => default_share n
      end
  end.

(** The recomputation sentence, for every triggered recomputation and
    every column index. *)
Definition recomputation_as_stated : Prop :=
  ∀ (g : DataGrid) (i : nat) (c : option Column),
    length (gridTemplateColumns g) ≠ length (columns g) ->
    columns g !! i = Some c ->
    get (gridTemplateColumns (handleColumnsChange g)) i
    = Some (stated_cell_width (gridTemplateColumns g) (boundingWidth g)
              (length (columns g)) i c).

(** A column that has only a name and, possibly, a [minWidth]. *)
Definition plain_column (name : string) (m : option number) : Column :=
  mkColumn name name m None.

(** A grid with the default flags and no coordinator. *)
Definition blank_grid (cols : array Column) (widths : array number)
    (w : number) : DataGrid :=
  mkGrid cols [] false true widths w [] None None None None.

(** Two columns, the first with [minWidth: 0], in a grid 1000 pixels wide
    that has no widths yet. *)
Definition grid_minWidth_zero : DataGrid :=
  blank_grid [Some (plain_column "a" (Some (of_Z 0)));
              Some (plain_column "b" None)] [] (of_Z 1000).

(** Three columns without [minWidth] in a fresh grid (scenario A). *)
Definition grid_three_columns : DataGrid :=
  blank_grid [Some (plain_column "a" None); Some (plain_column "b" None);
              Some (plain_column "c" None)] [] (of_Z 1000).

(** The pixel width that the specification's [resize] formula gives, with
    the fallback taken only when [minWidth] is unset ([??]). *)
Definition stated_resized_px (s : ResizeSession) (clientX : number)
    (this : DataGridColumn) : number :=
  Math_max [nullish_else (col_minWidth this) fallback_minWidth;
            (startWidth s + clientX - startX s)%js].

(** The resize sentence, for every pointer move of an active resize. *)
Definition resize_as_stated : Prop :=
  ∀ (s : ResizeSession) (x : number) (this : DataGridColumn) (g : DataGrid)
    (log : list string),
    _resizing this = true ->
    ∃ (this' : DataGridColumn) (g' : DataGrid),
      onPointerMove s x this (mkWorld (Some g) log)
      = (Return this', mkWorld (Some g') log) ∧
      get (gridTemplateColumns g') (index this)
      = Some (pixelsToPercentOfWidth (stated_resized_px s x this)
                (boundingWidth g)).

(** A column 100 pixels wide with [minWidth: 0], dragged 70 pixels to the
    left in a grid 1000 pixels wide. *)
Definition column_minWidth_zero : DataGridColumn :=
  mkColumnElement 0 (Some (of_Z 0)) None true None (of_Z 100).
Definition session_at_500 : ResizeSession := mkSession (of_Z 500) (of_Z 100).
Definition grid_1000 : DataGrid :=
  blank_grid [Some (plain_column "a" (Some (of_Z 0)))] [Some (of_Z 10)]
    (of_Z 1000).

(** A column 100 pixels wide without [minWidth]. *)
Definition column_unset : DataGridColumn :=
  mkColumnElement 0 None None true None (of_Z 100).

(** Inserting [x] so that it ends up at position [i]. *)
Definition insert_at {A : Type} (i : nat) (x : A) (l : list A) : list A :=
  take i l ++ x :: drop i l.

(** [i] is a position of [arr]. *)
Definition in_range {A : Type} (arr : list A) (i : Z) : Prop :=
  0 <= i < Z.of_nat (length arr).

Definition four_columns : array Column :=
  [Some (plain_column "A" None); Some (plain_column "B" None);
   Some (plain_column "C" None); Some (plain_column "D" None)].

Definition two_columns : array Column :=
  [Some (plain_column "A" None); Some (plain_column "B" None)].

Definition grid_two_columns : DataGrid :=
  blank_grid two_columns [Some (of_Z 49); Some (of_Z 49)] (of_Z 1000).

(** A drop reported with a source index past the end of two columns. *)
Definition stray_drop : SortableEvent := mkEvent (Some 5) (Some 0) 0.

(** The permutation sentence, for every drop on either axis. *)
Definition drop_permutes_as_stated : Prop :=
  ∀ (g : DataGrid) (e : SortableEvent),
    (columns (columns_onEnd e g) ≡ₚ columns g ∧
     length (columns (columns_onEnd e g)) = length (columns g) ∧
     gridTemplateColumns (columns_onEnd e g) = gridTemplateColumns g) ∧
    (rows (rows_onEnd e g) ≡ₚ rows g ∧
     length (columns (rows_onEnd e g)) = length (columns g) ∧
     gridTemplateColumns (rows_onEnd e g) = gridTemplateColumns g).

(** The rejection sentence: a drop with an index out of range changes
    nothing. *)
Definition stray_drop_rejected_as_stated : Prop :=
  ∀ (g : DataGrid) (e : SortableEvent) (f t : Z),
    oldIndex e = Some f -> newIndex e = Some t ->
    (¬ (in_range (columns g) f ∧ in_range (columns g) t) ->
     columns (columns_onEnd e g) = columns g) ∧
    (¬ (in_range (rows g) f ∧ in_range (rows g) t) ->
     rows (rows_onEnd e g) = rows g).

(** The outcome of the double [splice] on [arr], by cases on whether the
    clamped source position addresses an element. *)
Definition clamped_drop {A : Type} (arr result : array A) (f t : Z) : Prop :=
  let s := actual_start (length arr) f in
  (∀ x, arr !! s = Some x ->
        result = insert_at (actual_start (length arr - 1) t) x (delete s arr)
        ∧ result ≡ₚ arr) ∧
  (arr !! s = None ->
   result = insert_at (actual_start (length arr) t) None arr
   ∧ length result = S (length arr)).

(** No coordinator the grid has constructed reports gestures any more. *)
Definition all_destroyed (g : DataGrid) : Prop :=
  Forall (fun s => destroyed s = true) (sortables g).

(** Every coordinator that still reports gestures is one of the two the
    grid refers to. *)
Definition tracked (g : DataGrid) : Prop :=
  ∀ (i : nat) (s : Sortable),
    sortables g !! i = Some s -> destroyed s = false ->
    sortableColumns g = Some i ∨ sortableRows g = Some i.

(** Two columns, reordering on, after the first update (scenario E). *)
Definition live_grid : DataGrid :=
  firstUpdate (blank_grid two_columns [] (of_Z 1000)).

(** What an event has to respect for the widths to stay as many as the
    columns: a width is written to a slot that exists, and a drop names
    a column that exists. *)
Definition well_formed (g : DataGrid) (ev : GridEvent) : Prop :=
  match ev with
  | WidthAssigned i _ => (i < length (gridTemplateColumns g))%nat
  | DragEnd _ e => ∃ f : Z, oldIndex e = Some f ∧ in_range (columns g) f
  | _ => True
  end.


(** The events that neither construct nor destroy a coordinator. *)
Definition keeps_coordinators (ev : GridEvent) : bool :=
  match ev with
  | WatcherResumed | Disconnected => false
  | _ => true
  end.

(** [reorderable] switched off and on again before the watcher of the
    first assignment resumes: both watchers then read [true]. *)
Definition hasty_toggle : list GridEvent :=
  [ReorderableAssigned false; ReorderableAssigned true;
   WatcherResumed; WatcherResumed].

(** [reorderable] switched off, and the watcher run to its end. *)
Definition switch_off : list GridEvent :=
  [ReorderableAssigned false; WatcherResumed].

(** * Properties *)

(** ** Numbers *)

Lemma truthy_not_nan x : truthy x = true -> is_nan x = false.
Proof. by destruct x. Qed.

Lemma truthy_val_Some x v : truthy_val x = Some v -> x = Some v ∧ truthy v = true.
Proof.
  destruct x as [w|]; simpl; [|done].
  destruct (truthy w) eqn:E; [|done]. intros [= <-]. done.
Qed.

Lemma or_else_not_nan a b : is_nan b = false -> is_nan (or_else a b) = false.
Proof.
  intros Hb. unfold or_else.
  destruct (truthy_val a) as [v|] eqn:E; simpl; [|done].
  apply truthy_val_Some in E as [_ E]. by apply truthy_not_nan.
Qed.

Lemma SFcompare_refl x : is_nan x = false -> SFcompare x x = Some Eq.
Proof.
  destruct x as [s|s| |s m e]; simpl; try done.
  - by destruct s.
  - intros _. rewrite Z.compare_refl, Pos.compare_cont_refl. by destruct s.
Qed.

Lemma leb_refl x : is_nan x = false -> leb x x = true.
Proof. intros H. unfold leb, SFleb. by rewrite SFcompare_refl. Qed.

Lemma ltb_leb x y : ltb x y = true -> leb x y = true.
Proof.
  unfold ltb, leb, SFltb, SFleb.
  by destruct (SFcompare x y) as [[]|].
Qed.

Lemma max_step_first x :
  is_nan x = false -> max_step (Some (S754_infinity true)) x = Some x.
Proof. destruct x as [[]|[]| |[] m e]; simpl; done. Qed.

(** [Math.max] of two numbers is the second exactly when the first is
    strictly below it (or is [-0] against [+0]). *)
Lemma Math_max_pair m x :
  is_nan m = false -> is_nan x = false ->
  Math_max [m; x] = m ∨ (Math_max [m; x] = x ∧ leb m x = true).
Proof.
  intros Hm Hx. unfold Math_max. cbn [foldl].
  rewrite (max_step_first m Hm). unfold max_step. rewrite Hx.
  destruct (ltb m x) eqn:Hlt.
  - right. split; [|by apply ltb_leb].
    destruct x as [[]|[]| |[] mx ex]; try done; by destruct m as [[]| | |].
  - destruct x as [[]|[]| |[] mx ex]; try (by left); try done.
    destruct m as [[]|[]| |[] mm em]; try (by left); by right.
Qed.

Lemma Math_max_lower_bound m x :
  is_nan m = false -> is_nan x = false -> leb m (Math_max [m; x]) = true.
Proof.
  intros Hm Hx.
  destruct (Math_max_pair m x Hm Hx) as [-> | [-> H]]; [by apply leb_refl|done].
Qed.

Lemma Math_max_nan m : Math_max [m; NaN] = NaN.
Proof. unfold Math_max. cbn [foldl]. by destruct (max_step _ m). Qed.

(** ** Pixel to percent conversion *)

Lemma eqb_zero_is_zero x : eqb x (of_Z 0) = is_zero x.
Proof. by destruct x as [[]|[]| |[] m e]. Qed.

(** Scenario B: a [minWidth] of 200 pixels in a grid 1000 pixels wide is
    20 percent. *)
Example p2p_200_1000 :
  pixelsToPercentOfWidth (of_Z 200) (of_Z 1000) = of_Z 20.
Proof. vm_compute. reflexivity. Qed.

(** C6: with a grid width equal to [0] the conversion returns [0], which
    is neither [NaN] nor an infinity, whatever the pixel input is; with
    any other grid width it returns [(px / gridWidthPx) * 100]. *)
Theorem pixelsToPercentOfWidth_cases (px gridWidthPx : number) :
  (eqb gridWidthPx (of_Z 0) = true ->
   pixelsToPercentOfWidth px gridWidthPx = S754_zero false) ∧
  (eqb gridWidthPx (of_Z 0) = false ->
   pixelsToPercentOfWidth px gridWidthPx
   = (px / gridWidthPx * of_Z 100)%js).
Proof.
  unfold pixelsToPercentOfWidth.
  split; intros ->; reflexivity.
Qed.

Lemma pixelsToPercentOfWidth_cases_witness :
  pixelsToPercentOfWidth NaN (of_Z 0) = of_Z 0 ∧
  pixelsToPercentOfWidth (of_Z 150) (of_Z 1000) = of_Z 15.
Proof.
  split.
  - apply (proj1 (pixelsToPercentOfWidth_cases NaN (of_Z 0))). reflexivity.
  - rewrite (proj2 (pixelsToPercentOfWidth_cases (of_Z 150) (of_Z 1000)));
      [vm_compute; reflexivity | reflexivity].
Defined.

(** ** The grid width seen by a column *)

(** C8: a column without an enclosing grid reads the grid width as [0];
    the read appends one diagnostic to the console and returns normally.
    So does a pointer move of an active resize, which ends with a width
    of [0] percent, and so does the first update. *)
Theorem gridWidth_without_grid (log : list string) :
  gridWidth (mkWorld None log)
  = (Return (of_Z 0), mkWorld None (log ++ [warning])) ∧
  (∀ (s : ResizeSession) (x : number) (this : DataGridColumn),
     onPointerMove s x (set_resizing true this) (mkWorld None log)
     = (Return (set_width (Some (of_Z 0)) (set_resizing true this)),
        mkWorld None (log ++ [warning]))) ∧
  (∀ this : DataGridColumn,
     firstUpdated this (mkWorld None log) = (Return this, mkWorld None log)).
Proof.
  split; [reflexivity|]. split; [|reflexivity].
  intros s x this. unfold onPointerMove. cbn [_resizing set_resizing].
  unfold bind, gridWidth, read_grid, bind. cbn [grid].
  rewrite bool_decide_false by (by intros [? ?]).
  reflexivity.
Qed.

Lemma gridWidth_with_grid g log :
  gridWidth (mkWorld (Some g) log)
  = (Return (boundingWidth g), mkWorld (Some g) log).
Proof. reflexivity. Qed.

(** ** Width recomputation *)

Lemma initializeCellWidths_length g :
  length (gridTemplateColumns (initializeCellWidths g)) = length (columns g).
Proof. unfold initializeCellWidths. simpl. by rewrite length_imap. Qed.

(** C9: after the watcher of [columns] has run, the widths sequence is as
    long as the columns sequence, for whatever column set was assigned. *)
Theorem handleColumnsChange_lengths (g : DataGrid) (v : array Column) :
  let g' := step (ColumnsAssigned v) g in
  columns g' = v ∧
  length (gridTemplateColumns g') = length (columns g').
Proof.
  simpl. unfold handleColumnsChange.
  case_decide as H; simpl.
  - split; [done|]. apply (initializeCellWidths_length (set_columns v g)).
  - split; [done|]. simpl in H. destruct (decide (length (gridTemplateColumns g) = length v)); [done|]. by destruct H.
Qed.

Lemma handleColumnsChange_slot g i c :
  length (gridTemplateColumns g) ≠ length (columns g) ->
  columns g !! i = Some c ->
  gridTemplateColumns (handleColumnsChange g) !! i
  = Some (Some (cell_width (gridTemplateColumns g) (boundingWidth g)
                  (length (columns g)) i c)).
Proof.
  intros Hne Hc. unfold handleColumnsChange.
  rewrite decide_True by done.
  unfold initializeCellWidths, set_gridTemplateColumns.
  cbn [gridTemplateColumns]. by rewrite list_lookup_imap, Hc.
Qed.

Example grid_minWidth_zero_widths :
  gridTemplateColumns (handleColumnsChange grid_minWidth_zero)
  = [Some (of_Z 49); Some (of_Z 49)].
Proof. vm_compute. reflexivity. Qed.

(** C1, as stated, fails: a column whose [minWidth] is set to [0] gets the
    equal share (49 percent of two columns), not [0] converted to
    percent. *)
Lemma recomputation_as_stated_fails : ¬ recomputation_as_stated.
Proof.
  intros H.
  specialize (H grid_minWidth_zero 0%nat
                (Some (plain_column "a" (Some (of_Z 0))))).
  vm_compute in H.
  assert (Hne : (0 ≠ 2)%nat) by lia.
  specialize (H Hne eq_refl). discriminate H.
Qed.

(** C1, amended: when the recomputation is triggered and the prior widths
    sequence is empty or has at least two entries, slot [i] receives the
    prior width stored at [i] if there is one and it is truthy (neither
    [0] nor [NaN]); otherwise the converted [minWidth] of column [i] if it
    is set and truthy; otherwise the equal share [100 / N - 1]. *)
Theorem recomputed_width (g : DataGrid) (i : nat) (c : option Column) :
  length (gridTemplateColumns g) ≠ length (columns g) ->
  length (gridTemplateColumns g) ≠ 1%nat ->
  columns g !! i = Some c ->
  get (gridTemplateColumns (handleColumnsChange g)) i
  = Some match truthy_val (get (gridTemplateColumns g) i) with
         | Some w => w
         | None =>
             match truthy_val (minWidth_of c) with
             | Some m => pixelsToPercentOfWidth m (boundingWidth g)
             | None => default_share (length (columns g))
             end
         end.
Proof.
  intros Hne H1 Hc. unfold get at 1.
  rewrite (handleColumnsChange_slot g i c Hne Hc). simpl.
  unfold cell_width.
  destruct (1 <? length (gridTemplateColumns g))%nat eqn:E; [reflexivity|].
  apply Nat.ltb_ge in E.
  assert (gridTemplateColumns g = []) as ->
    by (destruct (gridTemplateColumns g) as [|? [|? ?]]; simpl in *; [done|lia|lia]).
  reflexivity.
Qed.

Lemma recomputed_width_witness :
  get (gridTemplateColumns (handleColumnsChange grid_three_columns)) 1
  = Some (default_share 3).
Proof.
  apply (recomputed_width grid_three_columns 1 (Some (plain_column "b" None)));
    [simpl; lia | simpl; lia | reflexivity].
Defined.

(** Scenario A: the share of three columns is the double nearest to
    [100/3 - 1], which lies between 32.33 and 32.34. *)
Example default_share_three :
  default_share 3 = S754_finite false 4550512123488939 (-47) ∧
  leb (of_Z 3233 / of_Z 100)%js (default_share 3) = true ∧
  ltb (default_share 3) (of_Z 3234 / of_Z 100)%js = true.
Proof. vm_compute. done. Qed.

(** A single prior width is not carried over: the guard of
    [initializeCellWidths] reads the prior sequence only when it has more
    than one entry. *)
Lemma single_prior_width_ignored g i c w :
  gridTemplateColumns g = [w] ->
  cell_width (gridTemplateColumns g) (boundingWidth g) (length (columns g)) i c
  = cell_width [] (boundingWidth g) (length (columns g)) i c.
Proof. intros ->. reflexivity. Qed.

(** ** Interactive resize *)

Lemma get_set_same {A} (arr : array A) (i : nat) (v : option A) :
  get (set arr i v) i = v.
Proof.
  unfold get, set. case_decide as H.
  - by rewrite list_lookup_insert_eq.
  - rewrite lookup_app_r by lia.
    rewrite lookup_app_r by (rewrite length_replicate; lia).
    rewrite length_replicate.
    by replace (i - length arr - (i - length arr))%nat with 0%nat by lia.
Qed.

Lemma get_set_other {A} (arr : array A) (i j : nat) (v : option A) :
  i ≠ j -> (j < length arr)%nat -> get (set arr i v) j = get arr j.
Proof.
  intros Hij Hj. unfold get, set. case_decide as H.
  - by rewrite list_lookup_insert_ne.
  - by rewrite lookup_app_l.
Qed.

Lemma onPointerMove_resizing s x this g log :
  _resizing this = true ->
  let v := pixelsToPercentOfWidth (resized_px s x this) (boundingWidth g) in
  onPointerMove s x this (mkWorld (Some g) log)
  = (Return (set_width (Some v) this),
     mkWorld
       (Some (set_gridTemplateColumns
                (set (gridTemplateColumns g) (index this) (Some v)) g))
       log).
Proof. intros Hr. unfold onPointerMove. rewrite Hr. reflexivity. Qed.

Example resize_minWidth_zero :
  onPointerMove session_at_500 (of_Z 430) column_minWidth_zero
    (mkWorld (Some grid_1000) [])
  = (Return (set_width (Some (of_Z 6)) column_minWidth_zero),
     mkWorld (Some (set_gridTemplateColumns [Some (of_Z 6)] grid_1000)) []).
Proof. vm_compute. reflexivity. Qed.

(** C2, as stated, fails: with [minWidth: 0] the stored width is 6 percent
    (the 60 pixel fallback), where [max(minWidth ?? 60, ...)] gives 3. *)
Lemma resize_as_stated_fails : ¬ resize_as_stated.
Proof.
  intros H.
  destruct (H session_at_500 (of_Z 430) column_minWidth_zero grid_1000 []
              eq_refl) as (this' & g' & Hrun & Hslot).
  rewrite resize_minWidth_zero in Hrun.
  injection Hrun as _ <-.
  vm_compute in Hslot. discriminate Hslot.
Qed.

(** C2, amended: a pointer move of an active resize stores, in the column
    and in slot [index] of the grid's widths, the pixel width
    [max(minWidth || 60, startWidth + clientX - startX)] converted to
    percent of the grid width, where the floor is [minWidth] when it is
    set and truthy and 60 otherwise; the pixel width is at least that
    floor. *)
Theorem resize_stores_clamped_width (s : ResizeSession) (x : number)
    (this : DataGridColumn) (g : DataGrid) (log : list string) :
  _resizing this = true ->
  let floor := or_else (col_minWidth this) (of_Z 60) in
  let px := Math_max [floor; (startWidth s + x - startX s)%js] in
  let v := pixelsToPercentOfWidth px (boundingWidth g) in
  ∃ (this' : DataGridColumn) (g' : DataGrid),
    onPointerMove s x this (mkWorld (Some g) log)
    = (Return this', mkWorld (Some g') log) ∧
    width this' = Some v ∧
    get (gridTemplateColumns g') (index this) = Some v ∧
    (is_nan (startWidth s + x - startX s)%js = false ->
     leb floor px = true).
Proof.
  intros Hr floor px v.
  eexists _, _. split; [apply (onPointerMove_resizing s x this g log Hr)|].
  split; [reflexivity|]. split.
  - cbn [gridTemplateColumns set_gridTemplateColumns]. apply get_set_same.
  - intros Hx. apply Math_max_lower_bound; [|done].
    by apply or_else_not_nan.
Qed.

(** Scenario C: 100 pixels wide, dragged 50 pixels to the right, grid
    1000 pixels wide, no [minWidth]: 15 percent. *)
Lemma resize_stores_clamped_width_witness :
  ∃ (this' : DataGridColumn) (g' : DataGrid),
    onPointerMove session_at_500 (of_Z 550) column_unset
      (mkWorld (Some grid_1000) [])
    = (Return this', mkWorld (Some g') []) ∧
    width this' = Some (of_Z 15) ∧
    get (gridTemplateColumns g') 0 = Some (of_Z 15) ∧
    (is_nan (of_Z 100 + of_Z 550 - of_Z 500)%js = false ->
     leb (of_Z 60) (of_Z 150) = true).
Proof.
  exact (resize_stores_clamped_width session_at_500 (of_Z 550) column_unset
           grid_1000 [] eq_refl).
Defined.

(** ** A [minWidth] of zero *)

Lemma cell_width_minWidth_zero prior gw n i name lbl mx sgn :
  cell_width prior gw n i (Some (mkColumn name lbl (Some (S754_zero sgn)) mx))
  = cell_width prior gw n i (Some (mkColumn name lbl None mx)).
Proof. reflexivity. Qed.

Lemma resized_px_minWidth_zero s x i mx r w ow sgn :
  resized_px s x (mkColumnElement i (Some (S754_zero sgn)) mx r w ow)
  = resized_px s x (mkColumnElement i None mx r w ow).
Proof. reflexivity. Qed.

(** C10: a column whose [minWidth] is [0] (of either sign) is treated as
    one without [minWidth].  Recomputation gives it the width it would
    give the column with [minWidth] unset, which is the equal share
    [100 / N - 1] when the slot has no prior width; an active resize
    stores the same grid widths as for the column with [minWidth] unset,
    with the 60 pixel floor. *)
Theorem minWidth_zero_as_unset (sgn : bool) :
  (∀ (g : DataGrid) (i : nat) (name lbl : string) (mx : option number),
     length (gridTemplateColumns g) ≠ length (columns g) ->
     columns g !! i
     = Some (Some (mkColumn name lbl (Some (S754_zero sgn)) mx)) ->
     get (gridTemplateColumns (handleColumnsChange g)) i
     = Some (cell_width (gridTemplateColumns g) (boundingWidth g)
               (length (columns g)) i (Some (mkColumn name lbl None mx))) ∧
     (get (gridTemplateColumns g) i = None ->
      get (gridTemplateColumns (handleColumnsChange g)) i
      = Some (default_share (length (columns g))))) ∧
  (∀ (s : ResizeSession) (x : number) (i : nat) (mx w : option number)
     (ow : number) (g : DataGrid) (log : list string),
     let zero := mkColumnElement i (Some (S754_zero sgn)) mx true w ow in
     let unset := mkColumnElement i None mx true w ow in
     let px := Math_max [of_Z 60; (startWidth s + x - startX s)%js] in
     snd (onPointerMove s x zero (mkWorld (Some g) log))
     = snd (onPointerMove s x unset (mkWorld (Some g) log)) ∧
     get (gridTemplateColumns
            (default g (grid (snd (onPointerMove s x zero
                                     (mkWorld (Some g) log)))))) i
     = Some (pixelsToPercentOfWidth px (boundingWidth g)) ∧
     (is_nan (startWidth s + x - startX s)%js = false ->
      leb (of_Z 60) (resized_px s x zero) = true)).
Proof.
  split.
  - intros g i name lbl mx Hne Hc.
    pose proof (handleColumnsChange_slot g i _ Hne Hc) as Hslot.
    unfold get at 1 3. rewrite Hslot. cbn [mjoin option_join].
    split; [by rewrite cell_width_minWidth_zero|].
    intros Hnone. unfold cell_width.
    replace (if (1 <? length (gridTemplateColumns g))%nat
             then get (gridTemplateColumns g) i else None)
      with (@None number) by (rewrite Hnone; by destruct (1 <? _)%nat).
    reflexivity.
  - intros s x i mx w ow g log zero unset px.
    rewrite (onPointerMove_resizing s x zero g log eq_refl).
    rewrite (onPointerMove_resizing s x unset g log eq_refl).
    cbn [snd grid default]. split; [reflexivity|]. split.
    + cbn [gridTemplateColumns set_gridTemplateColumns index zero].
      unfold zero at 1. cbn [index]. apply get_set_same.
    + intros Hx. apply (Math_max_lower_bound (of_Z 60)); done.
Qed.

Lemma minWidth_zero_as_unset_witness :
  get (gridTemplateColumns (handleColumnsChange grid_minWidth_zero)) 0
  = Some (default_share 2) ∧
  leb (of_Z 60)
    (resized_px session_at_500 (of_Z 430) column_minWidth_zero) = true.
Proof.
  destruct (minWidth_zero_as_unset false) as [Hinit Hresize]. split.
  - apply (Hinit grid_minWidth_zero 0%nat "a" "a" None);
      [simpl; lia | reflexivity | reflexivity].
  - apply (Hresize session_at_500 (of_Z 430) 0%nat None None (of_Z 100)
             grid_1000 []).
    reflexivity.
Defined.

(** ** Reordering *)

Lemma insert_at_length {A} i (x : A) l :
  length (insert_at i x l) = S (length l).
Proof.
  unfold insert_at. rewrite length_app, length_cons.
  rewrite <- (take_drop i l) at 3. rewrite length_app. lia.
Qed.

Lemma insert_at_perm {A} i (x : A) l : insert_at i x l ≡ₚ x :: l.
Proof.
  unfold insert_at. rewrite <- Permutation_middle. by rewrite take_drop.
Qed.

Lemma insert_at_lookup {A} i (x : A) l :
  (i <= length l)%nat -> insert_at i x l !! i = Some x.
Proof.
  intros Hi. unfold insert_at.
  rewrite lookup_app_r by (rewrite length_take; lia).
  rewrite length_take. by replace (i - i `min` length l)%nat with 0%nat by lia.
Qed.

Lemma actual_start_in_range len (i : Z) :
  0 <= i <= Z.of_nat len -> actual_start len i = Z.to_nat i.
Proof.
  intros Hi. unfold actual_start.
  destruct (i <? 0) eqn:E; [apply Z.ltb_lt in E; lia|]. lia.
Qed.

(** What the double [splice] does for arbitrary indices: both are
    clamped the way [splice] clamps its [start]; when the clamped source
    position holds an element it is moved, and when it lies past the end
    nothing is removed and [undefined] is inserted. *)
Lemma move_clamped {A} (arr : array A) (from to : option Z) :
  let s := actual_start (length arr) (to_integer from) in
  move arr from to
  = match arr !! s with
    | Some x =>
        insert_at (actual_start (length arr - 1) (to_integer to)) x
          (delete s arr)
    | None =>
        insert_at (actual_start (length arr) (to_integer to)) None arr
    end.
Proof.
  intros s. unfold move, splice. fold s.
  destruct (arr !! s) as [x|] eqn:Hs.
  - pose proof (lookup_lt_Some _ _ _ Hs) as Hlt.
    assert (actual_delete_count (length arr) s 1 = 1%nat) as ->
      by (unfold actual_delete_count; lia).
    rewrite (drop_S _ _ _ Hs). cbn [take app get lookup list_lookup mjoin option_join].
    rewrite Nat.add_1_r, <- delete_take_drop.
    rewrite length_delete by eauto.
    unfold actual_delete_count. cbn [snd].
    replace (Z.to_nat _) with 0%nat by lia.
    rewrite Nat.add_0_r. reflexivity.
  - pose proof (lookup_ge_None_1 _ _ Hs) as Hge.
    assert (actual_delete_count (length arr) s 1 = 0%nat) as ->
      by (unfold actual_delete_count; lia).
    rewrite Nat.add_0_r. cbn [take app get lookup list_lookup mjoin option_join].
    rewrite take_drop.
    unfold actual_delete_count. cbn [snd].
    replace (Z.to_nat _) with 0%nat by lia.
    rewrite Nat.add_0_r. reflexivity.
Qed.

Lemma move_in_range {A} (arr : array A) (f t : Z) (x : option A) :
  0 <= f -> arr !! Z.to_nat f = Some x -> 0 <= t < Z.of_nat (length arr) ->
  move arr (Some f) (Some t)
  = insert_at (Z.to_nat t) x (delete (Z.to_nat f) arr).
Proof.
  intros Hf Hx Ht. pose proof (lookup_lt_Some _ _ _ Hx) as Hlt.
  rewrite move_clamped. unfold to_integer. cbn [default from_option id].
  rewrite (actual_start_in_range (length arr) f) by lia. rewrite Hx.
  by rewrite (actual_start_in_range (length arr - 1) t) by lia.
Qed.

Lemma in_range_lookup {A} (arr : array A) (i : Z) :
  in_range arr i -> arr !! Z.to_nat i = Some (get arr (Z.to_nat i)).
Proof.
  intros [H0 H1]. unfold get.
  destruct (lookup_lt_is_Some_2 arr (Z.to_nat i)) as [x ->]; [lia|done].
Qed.

Lemma move_perm {A} (arr : array A) (f : Z) (to : option Z) :
  in_range arr f -> move arr (Some f) to ≡ₚ arr.
Proof.
  intros Hf. pose proof (in_range_lookup arr f Hf) as Hx.
  destruct Hf as [H0 H1].
  rewrite move_clamped. unfold to_integer at 1 3. cbn [default from_option id].
  rewrite (actual_start_in_range (length arr) f) by lia. rewrite Hx.
  rewrite insert_at_perm, delete_take_drop, Permutation_middle.
  by rewrite (take_drop_middle _ _ _ Hx).
Qed.

(** C3: a drop with both indices in range commits the removal of the
    element at [fromIndex] followed by its insertion at [toIndex], on the
    columns for the column coordinator and on the rows for the row
    coordinator. *)
Theorem drop_is_remove_then_insert (g : DataGrid) (e : SortableEvent)
    (f t : Z) :
  oldIndex e = Some f -> newIndex e = Some t ->
  (in_range (columns g) f -> in_range (columns g) t ->
   columns (columns_onEnd e g)
   = insert_at (Z.to_nat t) (get (columns g) (Z.to_nat f))
       (delete (Z.to_nat f) (columns g))) ∧
  (in_range (rows g) f -> in_range (rows g) t ->
   rows (rows_onEnd e g)
   = insert_at (Z.to_nat t) (get (rows g) (Z.to_nat f))
       (delete (Z.to_nat f) (rows g))).
Proof.
  intros Hf Ht. unfold columns_onEnd, rows_onEnd. rewrite Hf, Ht.
  split; intros Hfr Htr; cbn [columns rows set_colBefore set_rowBefore
                               set_columns set_rows];
    apply move_in_range; try apply Hfr; try apply Htr;
    by apply in_range_lookup.
Qed.

(** Scenario D: index 2 moved to index 0 in [A, B, C, D]. *)
Lemma drop_is_remove_then_insert_witness :
  columns (columns_onEnd (mkEvent (Some 2) (Some 0) 0)
             (blank_grid four_columns [] (of_Z 1000)))
  = [Some (plain_column "C" None); Some (plain_column "A" None);
     Some (plain_column "B" None); Some (plain_column "D" None)].
Proof.
  apply (proj1 (drop_is_remove_then_insert
                  (blank_grid four_columns [] (of_Z 1000))
                  (mkEvent (Some 2) (Some 0) 0) 2 0 eq_refl eq_refl));
    unfold in_range; simpl; lia.
Defined.

Example stray_drop_columns :
  columns (columns_onEnd stray_drop grid_two_columns)
  = [None; Some (plain_column "A" None); Some (plain_column "B" None)].
Proof. reflexivity. Qed.

(** C4, as stated for every drop, fails: a drop whose source index lies
    past the end leaves three entries where there were two columns. *)
Lemma drop_permutes_as_stated_fails : ¬ drop_permutes_as_stated.
Proof.
  intros H.
  destruct (H grid_two_columns stray_drop) as [(_ & Hlen & _) _].
  rewrite stray_drop_columns in Hlen. discriminate Hlen.
Qed.

(** C4, amended: for every drop whose [fromIndex] is in range, on either
    axis, the backing sequence after the commit is a permutation of the
    sequence before it, the columns keep their length, and the widths
    sequence is left as it was. *)
Theorem drop_permutes (g : DataGrid) (e : SortableEvent) (f : Z) :
  oldIndex e = Some f ->
  (in_range (columns g) f ->
   columns (columns_onEnd e g) ≡ₚ columns g ∧
   length (columns (columns_onEnd e g)) = length (columns g) ∧
   rows (columns_onEnd e g) = rows g ∧
   gridTemplateColumns (columns_onEnd e g) = gridTemplateColumns g) ∧
  (in_range (rows g) f ->
   rows (rows_onEnd e g) ≡ₚ rows g ∧
   length (rows (rows_onEnd e g)) = length (rows g) ∧
   columns (rows_onEnd e g) = columns g ∧
   gridTemplateColumns (rows_onEnd e g) = gridTemplateColumns g).
Proof.
  intros Hf. unfold columns_onEnd, rows_onEnd. rewrite Hf.
  split; intros Hr;
    cbn [columns rows gridTemplateColumns set_colBefore set_rowBefore
           set_columns set_rows];
    pose proof (move_perm _ f (newIndex e) Hr) as Hp;
    (split; [exact Hp|]); (split; [by rewrite Hp|]); done.
Qed.

Lemma drop_permutes_witness :
  columns (columns_onEnd (mkEvent (Some 0) (Some 1) 0) grid_two_columns)
  ≡ₚ two_columns ∧
  gridTemplateColumns
    (columns_onEnd (mkEvent (Some 0) (Some 1) 0) grid_two_columns)
  = [Some (of_Z 49); Some (of_Z 49)].
Proof.
  destruct (proj1 (drop_permutes grid_two_columns
                     (mkEvent (Some 0) (Some 1) 0) 0 eq_refl))
    as (Hp & _ & _ & Hw); [unfold in_range; simpl; lia|].
  split; [exact Hp | exact Hw].
Defined.

(** C7, as stated, fails: the callbacks do not check the indices, and a
    source index past the end inserts an [undefined] entry. *)
Lemma stray_drop_rejected_as_stated_fails : ¬ stray_drop_rejected_as_stated.
Proof.
  intros H.
  destruct (H grid_two_columns stray_drop 5 0 eq_refl eq_refl) as [Hc _].
  assert (Hout : ¬ (in_range (columns grid_two_columns) 5
                    ∧ in_range (columns grid_two_columns) 0)).
  { unfold in_range. simpl. lia. }
  specialize (Hc Hout). rewrite stray_drop_columns in Hc. discriminate Hc.
Qed.

Lemma move_clamped_drop {A} (arr : array A) (f t : Z) :
  clamped_drop arr (move arr (Some f) (Some t)) f t.
Proof.
  unfold clamped_drop. rewrite move_clamped.
  unfold to_integer. cbn [default from_option id].
  split.
  - intros x Hx. rewrite Hx. split; [done|].
    rewrite insert_at_perm, delete_take_drop, Permutation_middle.
    by rewrite (take_drop_middle _ _ _ Hx).
  - intros Hx. rewrite Hx. split; [done|]. apply insert_at_length.
Qed.

(** C7, amended: a drop with an index out of range is not rejected.  Both
    indices are clamped the way [splice] clamps them (a negative index
    counts from the end, an index past the end becomes the length).  When
    the clamped [fromIndex] addresses an element, that element is removed
    and inserted at the clamped [toIndex], and the sequence keeps its
    elements; when it lies past the end, nothing is removed and an
    [undefined] entry is inserted at the clamped [toIndex], so the
    sequence grows by one. *)
Theorem stray_drop_is_clamped (g : DataGrid) (e : SortableEvent) (f t : Z) :
  oldIndex e = Some f -> newIndex e = Some t ->
  (¬ (in_range (columns g) f ∧ in_range (columns g) t) ->
   clamped_drop (columns g) (columns (columns_onEnd e g)) f t) ∧
  (¬ (in_range (rows g) f ∧ in_range (rows g) t) ->
   clamped_drop (rows g) (rows (rows_onEnd e g)) f t).
Proof.
  intros Hf Ht. unfold columns_onEnd, rows_onEnd. rewrite Hf, Ht.
  split; intros _;
    cbn [columns rows set_colBefore set_rowBefore set_columns set_rows];
    apply move_clamped_drop.
Qed.

Lemma stray_drop_is_clamped_witness :
  columns (columns_onEnd stray_drop grid_two_columns)
  = None :: two_columns ∧
  length (columns (columns_onEnd stray_drop grid_two_columns)) = 3%nat.
Proof.
  destruct (proj1 (stray_drop_is_clamped grid_two_columns stray_drop 5 0
                     eq_refl eq_refl)) as [_ Hpast].
  - unfold in_range. simpl. lia.
  - exact (Hpast eq_refl).
Defined.

(** ** Enabling and disabling reordering *)

Lemma destroy_both_fields g :
  columns (destroy_both g) = columns g ∧
  rows (destroy_both g) = rows g ∧
  reorderable (destroy_both g) = reorderable g ∧
  sortableColumns (destroy_both g) = sortableColumns g ∧
  sortableRows (destroy_both g) = sortableRows g.
Proof.
  unfold destroy_both, destroy_ref.
  destruct (sortableColumns g) eqn:Ec; simpl; rewrite ?Ec;
    destruct (sortableRows g) eqn:Er; simpl; rewrite ?Ec, ?Er; done.
Qed.

Lemma destroy_both_sortables g :
  sortables (destroy_both g)
  = from_option (alter destroy) id (sortableRows g)
      (from_option (alter destroy) id (sortableColumns g) (sortables g)).
Proof.
  unfold destroy_both, destroy_ref.
  destruct (sortableColumns g) eqn:Ec; simpl;
    destruct (sortableRows g) eqn:Er; simpl; done.
Qed.

Lemma destroy_both_lookup g i s :
  sortables (destroy_both g) !! i = Some s ->
  ∃ s0, sortables g !! i = Some s0 ∧ direction s = direction s0 ∧
        (destroyed s0 = true -> destroyed s = true) ∧
        (sortableColumns g = Some i ∨ sortableRows g = Some i ->
         destroyed s = true) ∧
        (sortableColumns g ≠ Some i -> sortableRows g ≠ Some i -> s = s0).
Proof.
  rewrite destroy_both_sortables.
  destruct (sortableColumns g) as [c|], (sortableRows g) as [r|];
    cbn [from_option id]; rewrite ?list_lookup_alter;
    repeat case_decide; subst;
    rewrite ?list_lookup_alter; repeat case_decide; try congruence;
    intros Hs;
    repeat match goal with
      | H : _ <$> ?o = Some _ |- _ =>
          let x := fresh "x" in
          destruct o as [x|] eqn:?; simpl in H; [|discriminate H];
          injection H as <-
      end;
    eexists; (split; [eassumption || reflexivity|]); simpl;
    repeat split; try done; try tauto;
    try (intros [[= ?]|[= ?]]; congruence); try congruence.
Qed.

Lemma destroy_both_all_destroyed g :
  tracked g -> all_destroyed (destroy_both g).
Proof.
  intros Ht. apply Forall_lookup. intros i s Hs.
  destruct (destroy_both_lookup g i s Hs) as (s0 & H0 & _ & Hkeep & Href & _).
  destruct (destroyed s0) eqn:Ed; [by apply Hkeep|].
  apply Href, (Ht i s0 H0 Ed).
Qed.

Lemma handleColumnsChange_coordinators g :
  sortables (handleColumnsChange g) = sortables g ∧
  sortableColumns (handleColumnsChange g) = sortableColumns g ∧
  sortableRows (handleColumnsChange g) = sortableRows g ∧
  reorderable (handleColumnsChange g) = reorderable g.
Proof. unfold handleColumnsChange. by case_decide. Qed.

Lemma dispatch_frame sid onC onR g :
  (∀ h, sortables (onC h) = sortables h ∧
        sortableColumns (onC h) = sortableColumns h ∧
        sortableRows (onC h) = sortableRows h ∧
        reorderable (onC h) = reorderable h) ->
  (∀ h, sortables (onR h) = sortables h ∧
        sortableColumns (onR h) = sortableColumns h ∧
        sortableRows (onR h) = sortableRows h ∧
        reorderable (onR h) = reorderable h) ->
  sortables (dispatch sid onC onR g) = sortables g ∧
  sortableColumns (dispatch sid onC onR g) = sortableColumns g ∧
  sortableRows (dispatch sid onC onR g) = sortableRows g ∧
  reorderable (dispatch sid onC onR g) = reorderable g.
Proof.
  intros HC HR. unfold dispatch.
  destruct (sortables g !! sid) as [s|]; [|done].
  destruct (destroyed s); [done|]. by destruct (direction s).
Qed.


(** C5 fails on the code.  The watcher reads the flag only after its
    await, and its enabling branch overwrites the two fields without
    destroying the coordinators they held.  When [reorderable] is
    switched off and on again before the first watcher resumes, four
    coordinators are left that no field refers to; switching
    [reorderable] off afterwards destroys the two referred to and leaves
    those four reporting gestures, so a drag still reorders the
    columns. *)
Theorem disabling_leaves_leaked_coordinators :
  let g := run hasty_toggle live_grid in
  let g' := run switch_off g in
  reorderable g = true ∧ reorderable g' = false ∧
  sortables g'
  = [mkSortable Horizontal false; mkSortable Vertical false;
     mkSortable Horizontal false; mkSortable Vertical false;
     mkSortable Horizontal true; mkSortable Vertical true] ∧
  sortableColumns g' = Some 4%nat ∧ sortableRows g' = Some 5%nat ∧
  columns g' = [Some (plain_column "A" None); Some (plain_column "B" None)] ∧
  columns (step (DragEnd 0 (mkEvent (Some 0) (Some 1) 0)) g')
  = [Some (plain_column "B" None); Some (plain_column "A" None)].
Proof. repeat split; vm_compute; reflexivity. Qed.

(** While reordering is on, the same gesture does reorder. *)
Example live_grid_drag :
  columns (step (DragEnd 0 (mkEvent (Some 0) (Some 1) 0)) live_grid)
  = [Some (plain_column "B" None); Some (plain_column "A" None)].
Proof. reflexivity. Qed.

(** The earlier revision destroys the coordinators in the same way when
    its [sortable] flag is off. *)
Lemma earlier_watcher_destroys g :
  tracked g -> sortable g = false ->
  all_destroyed (Earlier.handleSortableColumnChange g).
Proof.
  intros Ht Hs. unfold Earlier.handleSortableColumnChange. rewrite Hs.
  by apply destroy_both_all_destroyed.
Qed.

(** * Further properties of the elements *)

(** ** Width recomputation *)

(** X1: recomputing the widths is idempotent: once the watcher of
    [columns] has run, running it again changes nothing. *)
Theorem handleColumnsChange_idempotent (g : DataGrid) :
  handleColumnsChange (handleColumnsChange g) = handleColumnsChange g.
Proof.
  destruct (decide (length (gridTemplateColumns g) ≠ length (columns g)))
    as [Hne|Heq].
  - assert (Hrun : handleColumnsChange g = initializeCellWidths g)
      by (unfold handleColumnsChange; by rewrite decide_True).
    rewrite Hrun. unfold handleColumnsChange. rewrite decide_False; [done|].
    intros Hne'. apply Hne'. exact (initializeCellWidths_length g).
  - assert (Hrun : handleColumnsChange g = g)
      by (unfold handleColumnsChange; by rewrite decide_False).
    by rewrite !Hrun.
Qed.

(** X2: assigning a column set with as many columns as there are widths
    recomputes nothing: the widths stay as they are, whatever [minWidth]
    the new columns ask for. *)
Theorem same_count_keeps_widths (g : DataGrid) (v : array Column) :
  length v = length (gridTemplateColumns g) ->
  gridTemplateColumns (step (ColumnsAssigned v) g) = gridTemplateColumns g.
Proof.
  intros Hlen. cbn [step]. unfold handleColumnsChange.
  rewrite decide_False; [done|]. cbn. intros Hne. by apply Hne.
Qed.

Lemma same_count_keeps_widths_witness :
  gridTemplateColumns
    (step (ColumnsAssigned [Some (plain_column "x" (Some (of_Z 300)));
                            Some (plain_column "y" (Some (of_Z 300)))])
       grid_two_columns)
  = [Some (of_Z 49); Some (of_Z 49)].
Proof. apply (same_count_keeps_widths grid_two_columns). reflexivity. Defined.

Lemma cell_width_prior prior gw n i c w :
  (2 <= length prior)%nat -> prior !! i = Some w -> usable_width w ->
  Some (cell_width prior gw n i c) = w.
Proof.
  intros Hlen Hi [v Hv]. unfold cell_width, get.
  replace (1 <? length prior)%nat with true
    by (symmetry; apply Nat.ltb_lt; lia).
  rewrite Hi. cbn [mjoin option_join]. rewrite Hv.
  by apply truthy_val_Some in Hv as [-> _].
Qed.

(** X3: widths are carried over by position.  When the column count
    changes and there were at least two usable widths before, the widths
    the two sequences have in common are the old ones: adding columns
    keeps every old width, removing columns keeps a prefix. *)
Theorem widths_carried_over (g : DataGrid) :
  length (gridTemplateColumns g) ≠ length (columns g) ->
  (2 <= length (gridTemplateColumns g))%nat ->
  Forall usable_width (gridTemplateColumns g) ->
  take (length (gridTemplateColumns g))
    (gridTemplateColumns (handleColumnsChange g))
  = take (length (columns g)) (gridTemplateColumns g).
Proof.
  intros Hne H2 Hall. apply list_eq. intros i.
  rewrite !lookup_take.
  destruct (columns g !! i) as [c|] eqn:Hc;
    destruct (gridTemplateColumns g !! i) as [w|] eqn:Hw.
  - pose proof (lookup_lt_Some _ _ _ Hc). pose proof (lookup_lt_Some _ _ _ Hw).
    rewrite !decide_True by done.
    rewrite (handleColumnsChange_slot g i c Hne Hc). f_equal.
    apply cell_width_prior; [done|done|].
    by apply (proj1 (Forall_lookup _ _) Hall i).
  - pose proof (lookup_ge_None_1 _ _ Hw).
    rewrite (decide_False (P := (i < length (gridTemplateColumns g))%nat)) by lia.
    by case_decide.
  - pose proof (lookup_ge_None_1 _ _ Hc).
    rewrite (decide_False (P := (i < length (columns g))%nat)) by lia.
    case_decide; [|done]. apply lookup_ge_None_2.
    unfold handleColumnsChange. rewrite decide_True by done.
    rewrite initializeCellWidths_length. lia.
  - pose proof (lookup_ge_None_1 _ _ Hw).
    rewrite (decide_False (P := (i < length (gridTemplateColumns g))%nat)) by lia.
    by case_decide.
Qed.

Lemma widths_carried_over_witness :
  gridTemplateColumns
    (handleColumnsChange
       (blank_grid [Some (plain_column "a" (Some (of_Z 500)))]
          [Some (of_Z 30); Some (of_Z 20); Some (of_Z 10)] (of_Z 1000)))
  = [Some (of_Z 30)].
Proof.
  apply (widths_carried_over
           (blank_grid [Some (plain_column "a" (Some (of_Z 500)))]
              [Some (of_Z 30); Some (of_Z 20); Some (of_Z 10)] (of_Z 1000))).
  - simpl. lia.
  - simpl. lia.
  - repeat constructor; by eexists.
Defined.

(** X4: a grid without widths whose columns ask for no usable [minWidth]
    gives every column the same share [100 / N - 1]. *)
Theorem equal_shares (g : DataGrid) :
  gridTemplateColumns g = [] ->
  Forall (fun c => truthy_val (minWidth_of c) = None) (columns g) ->
  gridTemplateColumns (handleColumnsChange g)
  = replicate (length (columns g)) (Some (default_share (length (columns g)))).
Proof.
  intros Hw Hcols. unfold handleColumnsChange. rewrite Hw.
  case_decide as Hne.
  - unfold initializeCellWidths, set_gridTemplateColumns.
    cbn [gridTemplateColumns]. rewrite Hw.
    apply list_eq. intros i. rewrite list_lookup_imap.
    destruct (columns g !! i) as [c|] eqn:Hc; cbn [fmap option_fmap option_map].
    + rewrite lookup_replicate_2 by (by eapply lookup_lt_Some).
      do 2 f_equal. unfold cell_width. cbn.
      by rewrite (proj1 (Forall_lookup _ _) Hcols i c Hc).
    + symmetry. apply lookup_replicate_None. by apply lookup_ge_None_1.
  - destruct (columns g); [by rewrite Hw|]. by destruct Hne.
Qed.

Lemma equal_shares_witness :
  gridTemplateColumns (handleColumnsChange grid_three_columns)
  = replicate 3 (Some (default_share 3)).
Proof.
  apply (equal_shares grid_three_columns); [reflexivity|].
  repeat constructor.
Defined.

(** ** Resize *)

Lemma set_length {A} (arr : array A) (i : nat) (v : option A) :
  length (set arr i v) = (length arr `max` S i)%nat.
Proof.
  unfold set. case_decide.
  - rewrite length_insert. lia.
  - rewrite !length_app, length_replicate. simpl. lia.
Qed.

Lemma set_lookup_other {A} (arr : array A) (i j : nat) (v : option A) :
  (i < length arr)%nat -> i ≠ j -> set arr i v !! j = arr !! j.
Proof.
  intros Hi Hij. unfold set. rewrite decide_True by done.
  by apply list_lookup_insert_ne.
Qed.

Lemma set_set {A} (arr : array A) (i : nat) (v1 v2 : option A) :
  set (set arr i v1) i v2 = set arr i v2.
Proof.
  unfold set at 1. rewrite decide_True by (rewrite set_length; lia).
  unfold set. case_decide.
  - apply list_insert_insert_eq.
  - rewrite insert_app_r_alt by lia.
    rewrite insert_app_r_alt by (rewrite length_replicate; lia).
    rewrite length_replicate.
    by replace (i - length arr - (i - length arr))%nat with 0%nat by lia.
Qed.

(** X5: a pointer move of an active resize changes one slot only.  For a
    column whose index addresses a width, the widths keep their length,
    every other slot keeps its value, and the columns, the rows and the
    console are left alone. *)
Theorem resize_changes_one_slot (s : ResizeSession) (x : number)
    (this : DataGridColumn) (g : DataGrid) (log : list string) :
  _resizing this = true ->
  (index this < length (gridTemplateColumns g))%nat ->
  ∃ (this' : DataGridColumn) (g' : DataGrid),
    onPointerMove s x this (mkWorld (Some g) log)
    = (Return this', mkWorld (Some g') log) ∧
    length (gridTemplateColumns g') = length (gridTemplateColumns g) ∧
    (∀ j, j ≠ index this ->
          gridTemplateColumns g' !! j = gridTemplateColumns g !! j) ∧
    columns g' = columns g ∧ rows g' = rows g ∧
    index this' = index this ∧ _resizing this' = true.
Proof.
  intros Hr Hi. eexists _, _.
  split; [apply (onPointerMove_resizing s x this g log Hr)|].
  cbn [gridTemplateColumns set_gridTemplateColumns columns rows index
         _resizing set_width].
  split; [rewrite set_length; lia|].
  split; [intros j Hj; by apply set_lookup_other|]. done.
Qed.

Lemma resize_changes_one_slot_witness :
  ∃ (this' : DataGridColumn) (g' : DataGrid),
    onPointerMove session_at_500 (of_Z 550) column_unset
      (mkWorld (Some grid_two_columns) [])
    = (Return this', mkWorld (Some g') []) ∧
    length (gridTemplateColumns g') = 2%nat ∧
    (∀ j, j ≠ 0%nat ->
          gridTemplateColumns g' !! j = [Some (of_Z 49); Some (of_Z 49)] !! j) ∧
    columns g' = two_columns ∧ rows g' = [] ∧
    index this' = 0%nat ∧ _resizing this' = true.
Proof.
  apply (resize_changes_one_slot session_at_500 (of_Z 550) column_unset
           grid_two_columns [] eq_refl).
  simpl. lia.
Defined.

(** X6: during a resize the stored width depends on the current pointer
    position only: a move to [x2] after a move to [x1] leaves the column
    and the grid as a single move to [x2] does. *)
Theorem resize_is_path_independent (s : ResizeSession) (x1 x2 : number)
    (this : DataGridColumn) (g : DataGrid) (log : list string) :
  _resizing this = true ->
  ∃ (this1 : DataGridColumn) (w1 : World),
    onPointerMove s x1 this (mkWorld (Some g) log) = (Return this1, w1) ∧
    onPointerMove s x2 this1 w1
    = onPointerMove s x2 this (mkWorld (Some g) log).
Proof.
  intros Hr. eexists _, _.
  split; [apply (onPointerMove_resizing s x1 this g log Hr)|].
  rewrite (onPointerMove_resizing s x2 this g log Hr).
  rewrite onPointerMove_resizing by done.
  cbn [gridTemplateColumns set_gridTemplateColumns boundingWidth index
         set_width].
  unfold resized_px. cbn [col_minWidth set_width].
  rewrite set_set. reflexivity.
Qed.

Lemma resize_is_path_independent_witness :
  ∃ (this1 : DataGridColumn) (w1 : World),
    onPointerMove session_at_500 (of_Z 430) column_unset
      (mkWorld (Some grid_two_columns) []) = (Return this1, w1) ∧
    onPointerMove session_at_500 (of_Z 550) this1 w1
    = onPointerMove session_at_500 (of_Z 550) column_unset
        (mkWorld (Some grid_two_columns) []).
Proof.
  exact (resize_is_path_independent session_at_500 (of_Z 430) (of_Z 550)
           column_unset grid_two_columns [] eq_refl).
Defined.

(** X7: neither recomputation nor resize reads [maxWidth]: two column
    sets that differ in [maxWidth] only get the same widths, and a resize
    stores the same width whatever the column's [maxWidth] is, also one
    beyond it. *)
Theorem maxWidth_is_not_enforced :
  (∀ (g : DataGrid) (cols : array Column) (mx : option number),
     gridTemplateColumns
       (step (ColumnsAssigned
                ((fun c : option Column =>
                    (fun c0 : Column =>
                       mkColumn (field c0) (label c0) (minWidth c0) mx) <$> c)
                   <$> cols)) g)
     = gridTemplateColumns (step (ColumnsAssigned cols) g)) ∧
  (∀ (s : ResizeSession) (x : number) (i : nat) (m mx mx' w : option number)
     (r : bool) (ow : number) (wd : World),
     snd (onPointerMove s x (mkColumnElement i m mx r w ow) wd)
     = snd (onPointerMove s x (mkColumnElement i m mx' r w ow) wd)) ∧
  (∀ mx : option number,
     resized_px session_at_500 (of_Z 900)
       (mkColumnElement 0 None mx true None (of_Z 100))
     = of_Z 500).
Proof.
  split; [|split].
  - intros g cols mx. cbn [step]. unfold handleColumnsChange.
    cbn [gridTemplateColumns set_columns columns].
    rewrite length_fmap. case_decide; [|done].
    unfold initializeCellWidths, set_gridTemplateColumns.
    cbn [gridTemplateColumns columns boundingWidth set_columns].
    rewrite length_fmap. apply list_eq. intros i.
    rewrite !list_lookup_imap, list_lookup_fmap.
    destruct (cols !! i) as [[c|]|]; reflexivity.
  - intros s x i m mx mx' w r ow wd. unfold onPointerMove.
    cbn [_resizing]. destruct r; [|reflexivity].
    unfold bind. destruct (gridWidth wd) as [[gw|e] wd']; [|reflexivity].
    unfold assign_width, bind, handleWidthChange, bind, read_grid.
    cbn [width index set_width]. unfold resized_px. cbn [col_minWidth].
    destruct (grid wd'); reflexivity.
  - intros mx. vm_compute. reflexivity.
Qed.

(** ** The resize gesture *)

Lemma onPointerMove_keeps_resizing s x this w this' w' :
  onPointerMove s x this w = (Return this', w') ->
  _resizing this' = _resizing this ∧ index this' = index this.
Proof.
  unfold onPointerMove. destruct (_resizing this) eqn:Hr.
  - unfold bind. destruct (gridWidth w) as [[gw|e] w1]; [|discriminate].
    unfold assign_width, bind.
    destruct (handleWidthChange _ w1) as [[u|e] w2]; [|discriminate].
    unfold ret. intros [= <- <-]. by rewrite <- Hr.
  - unfold ret. intros [= <- <-]. done.
Qed.

Lemma call_move_frame x p l :
  listeners (call_move x p l) = listeners p ∧
  fresh (call_move x p l) = fresh p ∧
  _resizing (element (call_move x p l)) = _resizing (element p).
Proof.
  unfold call_move.
  destruct (onPointerMove _ _ _ _) as [[this'|e] w'] eqn:Hm; [|done].
  cbn [listeners fresh element].
  by destruct (onPointerMove_keeps_resizing _ _ _ _ _ _ Hm) as [-> _].
Qed.

Lemma foldl_call_move_frame x ls p :
  listeners (foldl (call_move x) p ls) = listeners p ∧
  _resizing (element (foldl (call_move x) p ls)) = _resizing (element p).
Proof.
  revert p. induction ls as [|l ls IH]; intros p; [done|].
  cbn [foldl]. destruct (IH (call_move x p l)) as [-> ->].
  by destruct (call_move_frame x p l) as (-> & _ & ->).
Qed.

Lemma foldl_call_up_listeners ups p l :
  l ∈ listeners (foldl call_up p ups)
  ↔ l ∈ listeners p ∧ ∀ u, u ∈ ups -> closure l ≠ closure u.
Proof.
  revert p. induction ups as [|u ups IH]; intros p.
  - cbn [foldl]. split; [intros H; split; [done|]|by intros [H _]].
    intros u Hu. by apply elem_of_nil in Hu.
  - cbn [foldl]. rewrite IH. unfold call_up at 1. cbn [listeners].
    rewrite list_elem_of_filter. split.
    + intros [[Hne Hl] Hups]. split; [done|].
      intros u' [->|Hu']%elem_of_cons; [done|by apply Hups].
    + intros [Hl Hups]. split; [split; [|done]|].
      * apply Hups. by left.
      * intros u' Hu'. apply Hups. by right.
Qed.

Lemma foldl_call_up_resizing ups p :
  ups ≠ [] -> _resizing (element (foldl call_up p ups)) = false.
Proof.
  intros Hne. destruct ups as [|u ups]; [done|]. clear Hne.
  cbn [foldl].
  assert (H0 : _resizing (element (call_up p u)) = false) by reflexivity.
  revert H0. generalize (call_up p u). clear p u.
  induction ups as [|u ups IH]; intros p Hp; [done|].
  cbn [foldl]. by apply IH.
Qed.

Lemma pointerup_releases p :
  page_inv p ->
  listeners (pointerup p) = [] ∧ _resizing (element (pointerup p)) = false.
Proof.
  intros [Hpair Hidle]. unfold pointerup.
  set (ups := filter (fun l => is_kind OnPointerUp l = true) (listeners p)).
  assert (Hnil : listeners (foldl call_up p ups) = []).
  { apply elem_of_nil_inv. intros l [Hl Hnot]%foldl_call_up_listeners.
    destruct (Hpair l Hl) as (u & Hu & Hk & Hc).
    apply (Hnot u); [|done]. subst ups. by apply list_elem_of_filter. }
  split; [done|].
  destruct ups as [|u ups'] eqn:Hups.
  - cbn [foldl] in *. by apply Hidle.
  - by apply foldl_call_up_resizing.
Qed.

Lemma pointer_inv ev p : page_inv p -> page_inv (pointer ev p).
Proof.
  intros Hinv. destruct ev as [x|x|]; cbn [pointer].
  - destruct Hinv as [Hpair _]. unfold pointerdown.
    cbn [onResizePointerDown]. split; cbn [listeners element].
    + intros l [Hl|Hl]%elem_of_app.
      * destruct (Hpair l Hl) as (u & Hu & Hk & Hc).
        exists u. split; [apply elem_of_app; by left|done].
      * eexists (mkListener OnPointerUp (fresh p) _).
        split; [apply elem_of_app; right; by apply elem_of_list_here || (right; left)|].
        split; [done|].
        apply elem_of_cons in Hl as [->|Hl]; [done|].
        by apply list_elem_of_singleton in Hl as ->.
    + intros Hnil. by apply app_eq_nil in Hnil as [_ ?].
  - unfold pointermove.
    destruct (foldl_call_move_frame x
                (filter (fun l => is_kind OnPointerMove l = true) (listeners p))
                p) as [Hl Hr].
    destruct Hinv as [Hpair Hidle]. split; rewrite ?Hl, ?Hr; done.
  - destruct (pointerup_releases p Hinv) as [Hl Hr].
    split; [|done]. rewrite Hl. intros l Hin. by apply elem_of_nil in Hin.
Qed.

Lemma pointers_inv evs p : page_inv p -> page_inv (pointers evs p).
Proof.
  revert p. induction evs as [|ev evs IH]; intros p Hp; [done|].
  cbn [pointers foldl]. apply IH. by apply pointer_inv.
Qed.

(** X8: a pointer up ends every resize gesture of the column, however
    many pointer downs and moves came before: no closure stays
    registered on [document], the column is no longer resizing, and a
    later pointer move changes nothing. *)
Theorem pointerup_ends_resize (evs : list PointerEvent)
    (this : DataGridColumn) (w : World) :
  let p := pointerup (pointers evs (idle_page this w)) in
  listeners p = [] ∧
  _resizing (element p) = false ∧
  ∀ x : number, pointermove x p = p.
Proof.
  intros p.
  assert (Hinv : page_inv (pointers evs (idle_page this w))).
  { apply pointers_inv. split; [|done].
    intros l Hl. by apply elem_of_nil in Hl. }
  destruct (pointerup_releases _ Hinv) as [Hl Hr].
  split; [done|]. split; [done|].
  intros x. subst p. unfold pointermove. by rewrite Hl.
Qed.

(** ** Reordering *)

Lemma insert_at_delete {A} (l : list A) (i : nat) (x : A) :
  l !! i = Some x -> insert_at i x (delete i l) = l.
Proof.
  intros Hx. pose proof (lookup_lt_Some _ _ _ Hx) as Hlt.
  unfold insert_at. rewrite delete_take_drop.
  rewrite take_app_length' by (rewrite length_take; lia).
  rewrite drop_app_length' by (rewrite length_take; lia).
  by apply take_drop_middle.
Qed.

Lemma delete_insert_at {A} (l : list A) (i : nat) (x : A) :
  (i <= length l)%nat -> delete i (insert_at i x l) = l.
Proof.
  intros Hi. unfold insert_at.
  replace i with (length (take i l)) at 1 by (rewrite length_take; lia).
  rewrite delete_middle. apply take_drop.
Qed.

Lemma move_lookup_target {A} (arr : array A) (f t : Z) :
  in_range arr f -> in_range arr t ->
  move arr (Some f) (Some t) !! Z.to_nat t = Some (get arr (Z.to_nat f)) ∧
  delete (Z.to_nat t) (move arr (Some f) (Some t)) = delete (Z.to_nat f) arr ∧
  length (move arr (Some f) (Some t)) = length arr.
Proof.
  intros Hf Ht. pose proof (in_range_lookup arr f Hf) as Hx.
  destruct Hf as [Hf0 Hf1]. destruct Ht as [Ht0 Ht1].
  rewrite (move_in_range arr f t _ Hf0 Hx) by done.
  assert (Hlen : length (delete (Z.to_nat f) arr) = (length arr - 1)%nat)
    by (apply length_delete; eauto).
  split; [apply insert_at_lookup; lia|].
  split; [apply delete_insert_at; lia|].
  rewrite insert_at_length. lia.
Qed.

(** X9: a drop keeps the order of everything but the dragged element:
    with both indices in range, the dragged element ends up at
    [toIndex], and taking it out again leaves the sequence that taking
    it out of the original leaves. *)
Theorem drop_keeps_other_order {A : Type} (arr : array A) (f t : Z) :
  in_range arr f -> in_range arr t ->
  move arr (Some f) (Some t) !! Z.to_nat t = Some (get arr (Z.to_nat f)) ∧
  delete (Z.to_nat t) (move arr (Some f) (Some t)) = delete (Z.to_nat f) arr.
Proof.
  intros Hf Ht.
  destruct (move_lookup_target arr f t Hf Ht) as (H1 & H2 & _). done.
Qed.

Lemma drop_keeps_other_order_witness :
  move four_columns (Some 0) (Some 2) !! 2%nat
  = Some (Some (plain_column "A" None)) ∧
  delete 2%nat (move four_columns (Some 0) (Some 2))
  = [Some (plain_column "B" None); Some (plain_column "C" None);
     Some (plain_column "D" None)].
Proof.
  apply (drop_keeps_other_order four_columns 0 2);
    unfold in_range; simpl; lia.
Defined.

(** X10: a drop onto the position the element came from changes
    nothing. *)
Theorem drop_in_place {A : Type} (arr : array A) (i : Z) :
  in_range arr i -> move arr (Some i) (Some i) = arr.
Proof.
  intros Hi. pose proof (in_range_lookup arr i Hi) as Hx.
  rewrite (move_in_range arr i i _ (proj1 Hi) Hx Hi).
  by apply insert_at_delete.
Qed.

Lemma drop_in_place_witness :
  move four_columns (Some 3) (Some 3) = four_columns.
Proof. apply (drop_in_place four_columns 3). unfold in_range. simpl. lia. Defined.

(** X11: a drop is undone by the opposite drop: moving an element from
    [f] to [t] and then from [t] to [f] restores the sequence. *)
Theorem drop_round_trip {A : Type} (arr : array A) (f t : Z) :
  in_range arr f -> in_range arr t ->
  move (move arr (Some f) (Some t)) (Some t) (Some f) = arr.
Proof.
  intros Hf Ht.
  destruct (move_lookup_target arr f t Hf Ht) as (Hat & Hdel & Hlen).
  rewrite (move_in_range _ t f _ (proj1 Ht) Hat)
    by (unfold in_range in *; rewrite Hlen; done).
  rewrite Hdel. apply insert_at_delete. by apply in_range_lookup.
Qed.

Lemma drop_round_trip_witness :
  move (move four_columns (Some 2) (Some 0)) (Some 0) (Some 2) = four_columns.
Proof.
  apply (drop_round_trip four_columns 2 0); unfold in_range; simpl; lia.
Defined.

(** X12: a gesture stays on its axis.  The start of a drag changes
    neither the columns nor the rows; its end changes at most one of
    the two; and neither touches the widths, the flags or the
    coordinators. *)
Theorem drag_stays_on_axis (g : DataGrid) (sid : nat) (p : option nat)
    (e : SortableEvent) :
  (columns (step (DragStart sid p) g) = columns g ∧
   rows (step (DragStart sid p) g) = rows g ∧
   gridTemplateColumns (step (DragStart sid p) g) = gridTemplateColumns g ∧
   reorderable (step (DragStart sid p) g) = reorderable g ∧
   sortables (step (DragStart sid p) g) = sortables g) ∧
  ((columns (step (DragEnd sid e) g) = columns g ∧
    rowBefore (step (DragEnd sid e) g) = None) ∨
   (rows (step (DragEnd sid e) g) = rows g ∧
    colBefore (step (DragEnd sid e) g) = None) ∨
   step (DragEnd sid e) g = g) ∧
  gridTemplateColumns (step (DragEnd sid e) g) = gridTemplateColumns g ∧
  reorderable (step (DragEnd sid e) g) = reorderable g ∧
  sortables (step (DragEnd sid e) g) = sortables g.
Proof.
  cbn [step]. unfold dispatch.
  destruct (sortables g !! sid) as [s|];
    [|repeat split; try done; by right; right].
  destruct (destroyed s); [repeat split; try done; by right; right|].
  destruct (direction s); repeat split; try done.
  - right. left. done.
  - left. done.
Qed.

Lemma watcher_enabled_fields h :
  sortables (coordinators_watcher true h)
  = sortables h ++ [mkSortable Horizontal false; mkSortable Vertical false] ∧
  sortableColumns (coordinators_watcher true h) = Some (length (sortables h)) ∧
  sortableRows (coordinators_watcher true h)
  = Some (S (length (sortables h))) ∧
  columns (coordinators_watcher true h) = columns h ∧
  rows (coordinators_watcher true h) = rows h.
Proof.
  destruct h. unfold coordinators_watcher, new_Sortable. cbn.
  rewrite length_app, Nat.add_1_r, <- app_assoc. done.
Qed.

Lemma destroy_both_keeps g i s :
  sortables g !! i = Some s ->
  sortableColumns g ≠ Some i -> sortableRows g ≠ Some i ->
  sortables (destroy_both g) !! i = Some s.
Proof.
  intros Hs Hc Hr. rewrite destroy_both_sortables.
  destruct (sortableColumns g) as [c|], (sortableRows g) as [r|];
    cbn [from_option id];
    rewrite ?list_lookup_alter_ne by congruence; done.
Qed.

Lemma calm_step ev g :
  keeps_coordinators ev = true ->
  sortables (step ev g) = sortables g ∧
  sortableColumns (step ev g) = sortableColumns g ∧
  sortableRows (step ev g) = sortableRows g.
Proof.
  intros Hev. destruct ev as [v|v|v|i v|sid p|sid e| |];
    try discriminate Hev; cbn [step]; try done.
  - destruct (handleColumnsChange_coordinators (set_columns v g))
      as (-> & -> & -> & _). done.
  - destruct (dispatch_frame sid (columns_onStart p) (rows_onStart p) g)
      as (-> & -> & -> & _); done.
  - destruct (dispatch_frame sid (columns_onEnd e) (rows_onEnd e) g)
      as (-> & -> & -> & _); done.
Qed.



Lemma leaked_step ev g i s :
  sortables g !! i = Some s ->
  sortableColumns g ≠ Some i -> sortableRows g ≠ Some i ->
  sortables (step ev g) !! i = Some s ∧
  sortableColumns (step ev g) ≠ Some i ∧ sortableRows (step ev g) ≠ Some i.
Proof.
  intros Hs Hc Hr. destruct (keeps_coordinators ev) eqn:Hk.
  - by destruct (calm_step ev g Hk) as (-> & -> & ->).
  - assert (Hoff : sortables (destroy_both g) !! i = Some s ∧
                   sortableColumns (destroy_both g) ≠ Some i ∧
                   sortableRows (destroy_both g) ≠ Some i).
    { destruct (destroy_both_fields g) as (_ & _ & _ & -> & ->).
      split; [by apply destroy_both_keeps|done]. }
    destruct ev; try discriminate Hk; cbn [step]; [exact Hoff|].
    unfold handleSortableColumnChange.
    destruct (reorderable g); [|exact Hoff].
    destruct (watcher_enabled_fields g) as (Hs' & Hc' & Hr' & _).
    rewrite Hs', Hc', Hr'.
    pose proof (lookup_lt_Some _ _ _ Hs) as Hlt.
    rewrite lookup_app_l by done.
    repeat split; [done| |]; intros [= Heq]; lia.
Qed.

(** X13: a coordinator that no field refers to is never destroyed.  If
    it still reports gestures, it does so after any further events,
    among them [reorderable] switched off and the element disconnected,
    and each drop it reports reorders its axis. *)
Theorem leaked_coordinator_stays_live (g : DataGrid) (i : nat) (s : Sortable)
    (evs : list GridEvent) :
  sortables g !! i = Some s -> destroyed s = false ->
  sortableColumns g ≠ Some i -> sortableRows g ≠ Some i ->
  let h := run evs g in
  sortables h !! i = Some s ∧
  sortableColumns h ≠ Some i ∧ sortableRows h ≠ Some i ∧
  ∀ e : SortableEvent,
    step (DragEnd i e) h
    = match direction s with
      | Horizontal => columns_onEnd e h
      | Vertical => rows_onEnd e h
      end.
Proof.
  intros Hs Hlive Hc Hr h. subst h.
  assert (Hkeep : sortables (run evs g) !! i = Some s ∧
                  sortableColumns (run evs g) ≠ Some i ∧
                  sortableRows (run evs g) ≠ Some i).
  { revert g Hs Hc Hr. induction evs as [|ev evs IH]; intros g Hs Hc Hr;
      [done|].
    destruct (leaked_step ev g i s Hs Hc Hr) as (Hs1 & Hc1 & Hr1).
    exact (IH (step ev g) Hs1 Hc1 Hr1). }
  destruct Hkeep as (Hs' & Hc' & Hr'). repeat split; try done.
  intros e. cbn [step]. unfold dispatch. by rewrite Hs', Hlive.
Qed.

Lemma leaked_coordinator_stays_live_witness :
  sortables (run switch_off (run hasty_toggle live_grid)) !! 0%nat
  = Some (mkSortable Horizontal false) ∧
  columns (step (DragEnd 0 (mkEvent (Some 0) (Some 1) 0))
             (run switch_off (run hasty_toggle live_grid)))
  = [Some (plain_column "B" None); Some (plain_column "A" None)].
Proof.
  destruct (leaked_coordinator_stays_live (run hasty_toggle live_grid) 0
              (mkSortable Horizontal false) switch_off)
    as (Hs & _ & _ & Hdrop); try reflexivity; try discriminate.
  split; [exact Hs|]. by rewrite Hdrop.
Defined.




(** X15: when the watcher of [reorderable] resumes with the flag on, it
    constructs two fresh coordinators, a horizontal one the grid then
    refers to for its columns and a vertical one for its rows, and
    leaves every earlier coordinator as it is, no longer referred to.
    A drop reported by the first reorders the columns and leaves the
    rows, a drop reported by the second reorders the rows and leaves the
    columns.  The two are the only live ones exactly when none was live
    before. *)
Theorem enabling_builds_fresh_coordinators (g : DataGrid) :
  reorderable g = true ->
  let g' := step WatcherResumed g in
  let c := length (sortables g) in
  let r := S (length (sortables g)) in
  sortableColumns g' = Some c ∧ sortableRows g' = Some r ∧
  sortables g'
  = sortables g ++ [mkSortable Horizontal false; mkSortable Vertical false] ∧
  (∀ (i : nat) (s : Sortable),
     sortables g !! i = Some s ->
     sortables g' !! i = Some s ∧
     sortableColumns g' ≠ Some i ∧ sortableRows g' ≠ Some i) ∧
  (all_destroyed g ↔
   ∀ (i : nat) (s : Sortable),
     sortables g' !! i = Some s -> destroyed s = false -> i = c ∨ i = r) ∧
  (∀ e : SortableEvent,
     columns (step (DragEnd c e) g')
     = move (columns g) (oldIndex e) (newIndex e) ∧
     rows (step (DragEnd c e) g') = rows g) ∧
  (∀ e : SortableEvent,
     rows (step (DragEnd r e) g')
     = move (rows g) (oldIndex e) (newIndex e) ∧
     columns (step (DragEnd r e) g') = columns g).
Proof.
  intros Hre g' c r.
  assert (Hg' : g' = coordinators_watcher true g).
  { subst g'. cbn [step]. unfold handleSortableColumnChange. by rewrite Hre. }
  clearbody g'.
  destruct (watcher_enabled_fields g) as (Hs & Hsc & Hsr & Hcols & Hrows).
  rewrite <- Hg' in Hs, Hsc, Hsr, Hcols, Hrows.
  assert (Hc : sortables g' !! c = Some (mkSortable Horizontal false)).
  { rewrite Hs. subst c. by rewrite list_lookup_middle. }
  assert (Hr : sortables g' !! r = Some (mkSortable Vertical false)).
  { rewrite Hs. subst r. rewrite lookup_app_r by lia.
    by replace (S _ - _)%nat with 1%nat by lia. }
  split; [done|]. split; [done|]. split; [done|].
  split; [|split; [|split]].
  - intros i s Hi. pose proof (lookup_lt_Some _ _ _ Hi) as Hlt.
    rewrite Hs, Hsc, Hsr. rewrite lookup_app_l by done.
    repeat split; [done| |]; intros [= Heq]; lia.
  - split.
    + intros Ha i s Hi Hd. rewrite Hs in Hi.
      apply lookup_app_Some in Hi as [Hi|[Hge Hi]].
      * rewrite (proj1 (Forall_lookup _ _) Ha i s Hi) in Hd. discriminate Hd.
      * apply lookup_lt_Some in Hi as Hlt. simpl in Hlt. subst c r. lia.
    + intros Honly. apply Forall_lookup. intros i s Hi.
      pose proof (lookup_lt_Some _ _ _ Hi) as Hlt.
      destruct (destroyed s) eqn:Hd; [done|].
      destruct (Honly i s) as [Heq|Heq]; subst c r; try lia; try done.
      rewrite Hs. by rewrite lookup_app_l.
  - intros e. cbn [step]. unfold dispatch. rewrite Hc.
    cbn [destroyed direction]. unfold columns_onEnd.
    cbn [columns rows set_colBefore set_columns]. by rewrite Hcols, Hrows.
  - intros e. cbn [step]. unfold dispatch. rewrite Hr.
    cbn [destroyed direction]. unfold rows_onEnd.
    cbn [columns rows set_rowBefore set_rows]. by rewrite Hcols, Hrows.
Qed.

Lemma enabling_builds_fresh_coordinators_witness :
  columns (step (DragEnd 2 (mkEvent (Some 0) (Some 1) 0))
             (step WatcherResumed
                (step (ReorderableAssigned true) (run switch_off live_grid))))
  = [Some (plain_column "B" None); Some (plain_column "A" None)].
Proof.
  destruct (enabling_builds_fresh_coordinators
              (step (ReorderableAssigned true) (run switch_off live_grid))
              eq_refl)
    as (_ & _ & _ & _ & _ & Hcols & _).
  exact (proj1 (Hcols (mkEvent (Some 0) (Some 1) 0))).
Defined.



(** ** Cell rendering *)

Lemma renderCell_throws_TypeError render_of renderer row column i e :
  renderCell render_of renderer row column i = Throw e -> e = "TypeError".
Proof.
  unfold renderCell. destruct column as [c|]; [|intros H; by injection H].
  destruct (render_of c) as [f|], row as [r|];
    try (intros H; by injection H).
  - destruct (f (row_get r (field c)) i) as [| |b|n|s|tag|lt|lt];
      cbn [is_renderable and_then]; try (intros H; by injection H);
      try discriminate.
    + destruct (bool_decide _); discriminate.
    + destruct (bool_decide _); [discriminate|]. destruct renderer; discriminate.
  - discriminate.
Qed.

Lemma renderCell_throw_iff render_of renderer (r : Row) (c : Column) i :
  renderCell render_of renderer (Some r) (Some c) i = Throw "TypeError"
  ↔ ∃ f : RenderFn,
      render_of c = Some f ∧
      (f (row_get r (field c)) i = VUndefined
       ∨ f (row_get r (field c)) i = VNull).
Proof.
  unfold renderCell. destruct (render_of c) as [f|].
  - destruct (f (row_get r (field c)) i) as [| |b|n|s|tag|lt|lt] eqn:Hf;
      cbn [is_renderable and_then].
    + split; [intros _; exists f; by auto|done].
    + split; [intros _; exists f; by auto|done].
    + split; [done|]. intros (f' & [= <-] & [H|H]); congruence.
    + split; [done|]. intros (f' & [= <-] & [H|H]); congruence.
    + split; [done|]. intros (f' & [= <-] & [H|H]); congruence.
    + split; [done|]. intros (f' & [= <-] & [H|H]); congruence.
    + split; [by destruct (bool_decide _)|].
      intros (f' & [= <-] & [H|H]); congruence.
    + split; [destruct (bool_decide _); [done|by destruct renderer]|].
      intros (f' & [= <-] & [H|H]); congruence.
  - split; [done|]. by intros (f' & [=] & _).
Qed.

(** X16: for a row and a column that are there, [renderCell] throws
    exactly when the column has a [render] callback and the callback
    hands back [null] or [undefined]; the earlier revision returns in
    that case too. *)
Theorem renderCell_throws_on_nullish (render_of : Column -> option RenderFn)
    (renderer : option Renderer) (r : Row) (c : Column) (i : nat) :
  (renderCell render_of renderer (Some r) (Some c) i = Throw "TypeError"
   ↔ ∃ f : RenderFn,
       render_of c = Some f ∧
       (f (row_get r (field c)) i = VUndefined
        ∨ f (row_get r (field c)) i = VNull)) ∧
  (∃ out : rendered,
     EarlierCells.renderCell render_of (Some r) (Some c) i = Return out).
Proof.
  split; [apply renderCell_throw_iff|].
  unfold EarlierCells.renderCell. destruct (render_of c); eauto.
Qed.

(** A callback that finds no value for its field and hands back
    [undefined]. *)
Lemma renderCell_throws_on_nullish_witness :
  renderCell (fun _ => Some (fun v _ => from_option VString VUndefined v))
    None (Some [("A", "1")]) (Some (plain_column "B" None)) 0
  = Throw "TypeError".
Proof.
  apply (proj1 (renderCell_throws_on_nullish
                  (fun _ => Some (fun v _ => from_option VString VUndefined v))
                  None [("A", "1")] (plain_column "B" None) 0)).
  eexists. split; [reflexivity|]. by left.
Defined.

Lemma map_from_length {A B} (f : nat -> A -> outcome B) i arr bs :
  map_from f i arr = Return bs -> length bs = length arr.
Proof.
  revert i bs. induction arr as [|a arr IH]; intros i bs.
  - by intros [= <-].
  - cbn [map_from]. destruct (f i a) as [b|e]; [|discriminate].
    cbn [and_then].
    destruct (map_from f (S i) arr) as [bs'|e] eqn:Hm; [|discriminate].
    intros [= <-]. cbn [length]. f_equal. by eapply IH.
Qed.

Lemma map_from_returns {A B} (f : nat -> A -> outcome B) (P : B -> Prop)
    i arr :
  (∀ j a, a ∈ arr -> ∃ b, f j a = Return b ∧ P b) ->
  ∃ bs, map_from f i arr = Return bs ∧ Forall P bs.
Proof.
  revert i. induction arr as [|a arr IH]; intros i Hall.
  - exists []. done.
  - destruct (Hall i a) as (b & Hb & HP); [by left|].
    destruct (IH (S i)) as (bs & Hbs & HPs).
    { intros j a' Ha'. apply Hall. by right. }
    exists (b :: bs). cbn [map_from]. rewrite Hb. cbn [and_then].
    rewrite Hbs. split; [done|by constructor].
Qed.

Lemma map_from_throws {A B} (f : nat -> A -> outcome B) (e : string) i arr :
  (∀ j a e', f j a = Throw e' -> e' = e) ->
  (∃ a, a ∈ arr ∧ ∀ j, f j a = Throw e) ->
  map_from f i arr = Throw e.
Proof.
  intros Hone. revert i. induction arr as [|a arr IH]; intros i (a0 & Hin & Hthrow).
  - by apply elem_of_nil in Hin.
  - cbn [map_from]. destruct (f i a) as [b|e'] eqn:Hfa.
    + cbn [and_then]. rewrite IH; [done|].
      apply elem_of_cons in Hin as [->|Hin]; [|by exists a0].
      rewrite Hthrow in Hfa. discriminate Hfa.
    + cbn [and_then]. by rewrite (Hone i a e' Hfa).
Qed.

(** X17: a grid whose columns and rows are all there, with [render]
    callbacks that never hand back [null] or [undefined], renders: the
    template has one header cell per column and one cell per row and
    column. *)
Theorem render_is_rectangular (render_of : Column -> option RenderFn)
    (renderer : option Renderer) (g : DataGrid) :
  Forall is_Some (columns g) -> Forall is_Some (rows g) ->
  (∀ (c : Column) (f : RenderFn) (v : option string) (i : nat),
     render_of c = Some f -> f v i ≠ VUndefined ∧ f v i ≠ VNull) ->
  ∃ t : Template,
    render render_of renderer g = Return t ∧
    length (head t) = length (columns g) ∧
    length (body t) = length (rows g) ∧
    Forall (fun cells => length cells = length (columns g)) (body t).
Proof.
  intros Hcols Hrows Hsafe. unfold render.
  destruct (map_from_returns
              (fun idx row =>
                 map_from
                   (fun _ column => renderCell render_of renderer row column idx)
                   0 (columns g))
              (fun cells => length cells = length (columns g)) 0 (rows g))
    as (cells & Hcells & Hshape).
  { intros j row Hrow.
    destruct (proj1 (Forall_forall _ _) Hrows row Hrow) as [r ->].
    destruct (map_from_returns
                (fun _ column =>
                   renderCell render_of renderer (Some r) column j)
                (fun _ => True) 0 (columns g)) as (bs & Hbs & _).
    { intros k column Hcolumn.
      destruct (proj1 (Forall_forall _ _) Hcols column Hcolumn) as [c ->].
      destruct (renderCell render_of renderer (Some r) (Some c) j)
        as [out|e] eqn:Hcell; [by exists out|].
      pose proof (renderCell_throws_TypeError _ _ _ _ _ _ Hcell) as ->.
      apply (proj1 (renderCell_throw_iff render_of renderer r c j))
        in Hcell as (f & Hf & Hnull).
      destruct (Hsafe c f (row_get r (field c)) j Hf) as [H1 H2].
      by destruct Hnull. }
    exists bs. split; [done|]. by apply map_from_length in Hbs. }
  rewrite Hcells. cbn [and_then]. eexists. split; [reflexivity|].
  cbn [head body]. split; [by rewrite length_imap|].
  split; [by apply map_from_length in Hcells|done].
Qed.

Lemma render_is_rectangular_witness :
  ∃ t : Template,
    render (fun _ => None) None
      (set_rows [Some [("A", "1"); ("B", "2")]; Some [("A", "3")]]
         grid_two_columns)
    = Return t ∧
    length (head t) = 2%nat ∧ length (body t) = 2%nat ∧
    Forall (fun cells => length cells = 2%nat) (body t).
Proof.
  apply (render_is_rectangular (fun _ => None) None
           (set_rows [Some [("A", "1"); ("B", "2")]; Some [("A", "3")]]
              grid_two_columns)).
  - repeat constructor; by eexists.
  - repeat constructor; by eexists.
  - intros c f v i H. discriminate H.
Defined.

Lemma map_from_throw_inv {A B} (f : nat -> A -> outcome B) (e : string)
    i arr e' :
  (∀ j a e', f j a = Throw e' -> e' = e) ->
  map_from f i arr = Throw e' -> e' = e.
Proof.
  intros Hone. revert i. induction arr as [|a arr IH]; intros i; [done|].
  cbn [map_from]. destruct (f i a) as [b|e0] eqn:Hfa; cbn [and_then].
  - destruct (map_from f (S i) arr) as [bs|e1] eqn:Hm; [done|].
    cbn [and_then]. intros [= <-]. by eapply IH.
  - intros [= <-]. by eapply Hone.
Qed.

Lemma render_throws render_of renderer g :
  (None ∈ columns g ∧ rows g ≠ []) ∨ (None ∈ rows g ∧ columns g ≠ []) ->
  render render_of renderer g = Throw "TypeError".
Proof.
  intros Hbad. unfold render.
  rewrite (map_from_throws _ "TypeError"); [done| |].
  - intros j row e' Hrow. eapply map_from_throw_inv; [|exact Hrow].
    intros k column e''. apply renderCell_throws_TypeError.
  - destruct Hbad as [[Hcol Hrows]|[Hrow Hcols]].
    + destruct (rows g) as [|row rest]; [done|].
      exists row. split; [by left|]. intros j.
      apply map_from_throws.
      * intros k column e'. apply renderCell_throws_TypeError.
      * exists None. split; [done|]. intros k. by destruct row.
    + exists None. split; [done|]. intros j.
      destruct (columns g) as [|column rest]; [done|].
      apply map_from_throws.
      * intros k column' e'. apply renderCell_throws_TypeError.
      * exists column. split; [by left|]. intros k.
        destruct column as [c|]; [|done]. cbn [renderCell].
        by destruct (render_of c).
Qed.

Lemma move_past_end {A} (arr : array A) (f : Z) (to : option Z) :
  Z.of_nat (length arr) <= f -> None ∈ move arr (Some f) to.
Proof.
  intros Hf. rewrite move_clamped. unfold to_integer at 1.
  cbn [default from_option id].
  assert (Hs : actual_start (length arr) f = length arr).
  { unfold actual_start. destruct (f <? 0) eqn:E; [apply Z.ltb_lt in E|]; lia. }
  rewrite Hs, lookup_ge_None_2 by lia.
  unfold insert_at. apply elem_of_app. right. by left.
Qed.

(** X18: a stray drop breaks the next render.  After a drop on the
    columns whose [fromIndex] lies past the end, rendering a grid that
    has a row throws a [TypeError]; so does rendering a grid that has a
    column after such a drop on the rows. *)
Theorem stray_drop_breaks_render (render_of : Column -> option RenderFn)
    (renderer : option Renderer) (g : DataGrid) (e : SortableEvent) (f : Z) :
  oldIndex e = Some f ->
  (Z.of_nat (length (columns g)) <= f -> rows g ≠ [] ->
   render render_of renderer (columns_onEnd e g) = Throw "TypeError") ∧
  (Z.of_nat (length (rows g)) <= f -> columns g ≠ [] ->
   render render_of renderer (rows_onEnd e g) = Throw "TypeError").
Proof.
  intros Hf. split; intros Hpast Hne; apply render_throws.
  - left. unfold columns_onEnd.
    cbn [columns rows set_colBefore set_columns]. rewrite Hf.
    split; [by apply move_past_end|done].
  - right. unfold rows_onEnd.
    cbn [columns rows set_rowBefore set_rows]. rewrite Hf.
    split; [by apply move_past_end|done].
Qed.

Lemma stray_drop_breaks_render_witness :
  render (fun _ => None) None
    (columns_onEnd stray_drop
       (set_rows [Some [("A", "1"); ("B", "2")]] grid_two_columns))
  = Throw "TypeError".
Proof.
  apply (proj1 (stray_drop_breaks_render (fun _ => None) None
                  (set_rows [Some [("A", "1"); ("B", "2")]] grid_two_columns)
                  stray_drop 5 eq_refl)).
  - simpl. lia.
  - discriminate.
Defined.

(** ** Columns and their slots *)

Lemma set_get_same {A} (arr : array A) (i : nat) :
  (i < length arr)%nat -> set arr i (get arr i) = arr.
Proof.
  intros Hi. unfold set, get. rewrite decide_True by done.
  destruct (lookup_lt_is_Some_2 arr i Hi) as [v Hv].
  rewrite Hv. cbn [mjoin option_join]. by apply list_insert_id.
Qed.

Lemma set_gridTemplateColumns_same g :
  set_gridTemplateColumns (gridTemplateColumns g) g = g.
Proof. by destruct g. Qed.

(** X19: the first update of a column whose index addresses a width
    adopts that width and leaves the grid exactly as it was. *)
Theorem firstUpdated_adopts_width (this : DataGridColumn) (g : DataGrid)
    (log : list string) :
  (index this < length (gridTemplateColumns g))%nat ->
  firstUpdated this (mkWorld (Some g) log)
  = (Return (set_width (get (gridTemplateColumns g) (index this)) this),
     mkWorld (Some g) log).
Proof.
  intros Hi. unfold firstUpdated, bind, read_grid. cbn [grid].
  unfold assign_width, bind, handleWidthChange, bind, read_grid.
  cbn [grid width index set_width]. unfold write_grid, ret. cbn [console].
  by rewrite (set_get_same _ _ Hi), set_gridTemplateColumns_same.
Qed.

Lemma firstUpdated_adopts_width_witness :
  firstUpdated column_unset (mkWorld (Some grid_two_columns) [])
  = (Return (set_width (Some (of_Z 49)) column_unset),
     mkWorld (Some grid_two_columns) []).
Proof.
  apply (firstUpdated_adopts_width column_unset grid_two_columns []).
  simpl. lia.
Defined.

(** X20: a width stored by a resize is the width a column adopts when it
    is first updated at that index afterwards, whatever its own
    settings are. *)
Theorem resize_then_firstUpdated (s : ResizeSession) (x : number)
    (this other : DataGridColumn) (g : DataGrid) (log : list string) :
  _resizing this = true -> index other = index this ->
  ∃ (this' : DataGridColumn) (w' : World) (other' : DataGridColumn)
    (w'' : World),
    onPointerMove s x this (mkWorld (Some g) log) = (Return this', w') ∧
    firstUpdated other w' = (Return other', w'') ∧
    width other' = width this' ∧
    width other'
    = Some (pixelsToPercentOfWidth (resized_px s x this) (boundingWidth g)).
Proof.
  intros Hr Hidx. eexists _, _, _, _.
  split; [apply (onPointerMove_resizing s x this g log Hr)|].
  split.
  - unfold firstUpdated, bind, read_grid. cbn [grid].
    unfold assign_width, bind, handleWidthChange, bind, read_grid.
    cbn [grid]. unfold write_grid, ret. reflexivity.
  - cbn [width set_width gridTemplateColumns set_gridTemplateColumns].
    rewrite Hidx, get_set_same. done.
Qed.

Lemma resize_then_firstUpdated_witness :
  ∃ (this' : DataGridColumn) (w' : World) (other' : DataGridColumn)
    (w'' : World),
    onPointerMove session_at_500 (of_Z 550) column_unset
      (mkWorld (Some grid_two_columns) []) = (Return this', w') ∧
    firstUpdated column_minWidth_zero w' = (Return other', w'') ∧
    width other' = width this' ∧
    width other' = Some (of_Z 15).
Proof.
  exact (resize_then_firstUpdated session_at_500 (of_Z 550) column_unset
           column_minWidth_zero grid_two_columns [] eq_refl eq_refl).
Defined.

Lemma destroy_both_layout g :
  gridTemplateColumns (destroy_both g) = gridTemplateColumns g ∧
  columns (destroy_both g) = columns g.
Proof.
  unfold destroy_both, destroy_ref.
  destruct (sortableColumns g) eqn:Ec; cbn; rewrite ?Ec;
    destruct (sortableRows g) eqn:Er; cbn; rewrite ?Er; done.
Qed.

Lemma coordinators_watcher_layout b g :
  gridTemplateColumns (coordinators_watcher b g) = gridTemplateColumns g ∧
  columns (coordinators_watcher b g) = columns g.
Proof.
  unfold coordinators_watcher. destruct b; cbn [negb].
  - by destruct g.
  - apply destroy_both_layout.
Qed.

Lemma handleColumnsChange_length g :
  length (gridTemplateColumns (handleColumnsChange g))
  = length (columns (handleColumnsChange g)).
Proof.
  unfold handleColumnsChange. case_decide as Hne.
  - exact (initializeCellWidths_length g).
  - destruct (decide (length (gridTemplateColumns g) = length (columns g)));
      [done|by destruct Hne].
Qed.

(** X21: the widths stay as many as the columns.  If they are, they
    still are after any event that writes a width to a slot that exists
    or reports a drop of a column that exists, and after any event of
    another kind. *)
Theorem lengths_stay_equal (g : DataGrid) (ev : GridEvent) :
  length (gridTemplateColumns g) = length (columns g) ->
  well_formed g ev ->
  length (gridTemplateColumns (step ev g)) = length (columns (step ev g)).
Proof.
  intros Hlen Hwf. destruct ev as [v|v|v|i v|sid p|sid e| |].
  - cbn [step]. apply handleColumnsChange_length.
  - done.
  - done.
  - cbn [step gridTemplateColumns set_gridTemplateColumns columns].
    cbn in Hwf. rewrite set_length. lia.
  - cbn [step]. unfold dispatch.
    destruct (sortables g !! sid) as [s|]; [|done].
    destruct (destroyed s); [done|]. by destruct (direction s).
  - cbn [step]. unfold dispatch.
    destruct (sortables g !! sid) as [s|]; [|done].
    destruct (destroyed s); [done|]. destruct (direction s); [|done].
    destruct Hwf as (f & Hf & Hin). unfold columns_onEnd. rewrite Hf.
    cbn [gridTemplateColumns columns set_colBefore set_columns].
    by rewrite (move_perm (columns g) f (newIndex e) Hin).
  - cbn [step]. unfold disconnectedCallback.
    by destruct (destroy_both_layout g) as [-> ->].
  - cbn [step]. unfold handleSortableColumnChange.
    by destruct (coordinators_watcher_layout (reorderable g) g) as [-> ->].
Qed.

Lemma lengths_stay_equal_witness :
  length (gridTemplateColumns
            (step (DragEnd 0 (mkEvent (Some 1) (Some 0) 0))
               (step (ColumnsAssigned four_columns) live_grid)))
  = 4%nat.
Proof.
  apply (lengths_stay_equal (step (ColumnsAssigned four_columns) live_grid)
           (DragEnd 0 (mkEvent (Some 1) (Some 0) 0))).
  - reflexivity.
  - exists 1. split; [reflexivity|]. unfold in_range. simpl. lia.
Defined.

(** ** A whole resize gesture *)

(** X22: a pointer down at [x0], a move to [x] and a pointer up, on a
    column inside a grid, store the pixel width
    [max(minWidth || 60, (offsetWidth || 0) + x - x0)], as percent of the
    grid width, in the column and in its slot of the grid, and leave the
    column not resizing with nothing registered on [document]. *)
Theorem whole_gesture (x0 x : number) (this : DataGridColumn) (g : DataGrid)
    (log : list string) :
  let px :=
    Math_max [or_else (col_minWidth this) (of_Z 60);
              (or_else (Some (offsetWidth this)) (of_Z 0) + x - x0)%js] in
  let v := pixelsToPercentOfWidth px (boundingWidth g) in
  let p := pointers [Down x0; Move x; Up]
             (idle_page this (mkWorld (Some g) log)) in
  width (element p) = Some v ∧
  (∃ g', world p = mkWorld (Some g') log ∧
         get (gridTemplateColumns g') (index this) = Some v ∧
         columns g' = columns g ∧ rows g' = rows g) ∧
  _resizing (element p) = false ∧
  listeners p = [].
Proof.
  intros px v p. subst p px v. destruct this as [i m mx r w ow].
  cbn [pointers foldl pointer].
  unfold idle_page, pointerdown, onResizePointerDown, set_resizing.
  cbn [element listeners fresh world app index col_minWidth col_maxWidth
         _resizing width offsetWidth].
  set (s := mkSession x0 (or_else (Some ow) (of_Z 0))).
  set (this1 := mkColumnElement i m mx true w ow).
  unfold pointermove. cbn [listeners filter list_filter is_kind kind].
  rewrite !decide_True by done. rewrite decide_False by done.
  cbn [foldl]. unfold call_move. cbn [captured element world].
  rewrite (onPointerMove_resizing s x this1 g log eq_refl).
  cbn [listeners fresh].
  unfold pointerup. cbn [listeners filter list_filter is_kind kind].
  rewrite decide_False by done. rewrite decide_True by done.
  cbn [foldl]. unfold call_up.
  cbn [listeners filter list_filter closure element world fresh].
  rewrite !decide_False by (intros H; by apply H).
  unfold onPointerUp, set_resizing, set_width.
  cbn [width _resizing index col_minWidth offsetWidth this1].
  split; [reflexivity|]. split; [|done].
  eexists. split; [reflexivity|].
  cbn [gridTemplateColumns set_gridTemplateColumns columns rows index this1].
  split; [apply get_set_same|done].
Qed.
